(** * interviewprep-pro: the store, sign-up and the analytics arithmetic

    A shallow embedding of [database/db.py] (class [DatabaseManager]),
    [modules/auth.py] (class [AuthManager]), [modules/dashboard.py]
    (class [Dashboard]) and [modules/roadmap.py] (class [AIInsights]).

    Conventions of the embedding.
    - The SQLite file is an explicit value of type [Store] that every
      operation receives and, when it writes, returns.  A table is the list
      of its rows in rowid order.
    - A Python [str] is a [string]; a Python [int] is a [Z]; a count
      ([len], [COUNT]) is a [nat].
    - Python computes the percentages in binary64; the embedding computes
      them in exact rationals ([Q]).  A comparison with NaN, which is what
      pandas' [mean] of no rows yields, is kept: see [pyfloat].
    - The [except] branches of [update_interview] and [delete_interview]
      are modelled for the one cause that the arguments alone decide: an
      integer that does not fit in 64 bits.  Failures of the SQLite file
      itself (locked, table missing) are outside the embedding. *)

From Stdlib Require Import ZArith QArith Qminmax Ascii.
From stdpp Require Import gmap strings list sorting.

Local Open Scope Z_scope.
Local Open Scope string_scope.

(** ** Rows and the store *)

(** A row of [interviews]: the columns that the statements of [db.py] read
    or write. *)
Record Interview : Type := mkInterview {
  interview_id : Z;
  user_id : Z;
  company_name : string;
  role : string;
  interview_date : string;
  status : string;
  preparation_level : Z;
  notes : string;
  technical_topics : string;
  updated_at : Z
}.

(** A row of [users]. *)
Record User : Type := mkUser {
  u_user_id : Z;
  username : string;
  email : string;
  password_hash : string
}.

Record Store : Type := mkStore {
  users : list User;
  interviews : list Interview
}.

Definition with_users (db : Store) (us : list User) : Store :=
  {| users := us; interviews := interviews db |}.

Definition with_interviews (db : Store) (rows : list Interview) : Store :=
  {| users := users db; interviews := rows |}.

#[global] Instance Interview_eq_dec : EqDecision Interview.
Proof. solve_decision. Defined.

#[global] Instance User_eq_dec : EqDecision User.
Proof. solve_decision. Defined.

(** ** [DatabaseManager] *)

Module DatabaseManager.

(** Modelled from the spec: [database/schema.sql] is not among the
    sources.  The spec's data model makes username and email unique
    ("identity (id, username/email unique)"), which is what makes the
    [INSERT] of [create_user] raise [sqlite3.IntegrityError]. *)
Definition violates_unique (us : list User) (uname mail : string) : bool :=
  existsb (fun u => bool_decide (username u = uname)
                    || bool_decide (email u = mail)) us.

(** Modelled from the spec: the primary key of a new [users] row, which
    the absent schema lets SQLite choose: one more than the largest key
    in the table. *)
Definition next_user_id (us : list User) : Z :=
  1 + foldr (fun u m => Z.max (u_user_id u) m) 0 us.

(** [create_user]: [True] after the insert, [False] on
    [sqlite3.IntegrityError]. *)
Definition create_user (db : Store) (uname mail pw_hash : string)
  : bool * Store :=
  if violates_unique (users db) uname mail then (false, db)
  else (true,
        with_users db
          (users db ++ [mkUser (next_user_id (users db)) uname mail pw_hash])).

(** [ORDER BY interview_date DESC]: every row's date is at least the date
    of the rows after it, dates compared as SQLite compares text, byte by
    byte. *)
Definition date_desc (a b : Interview) : Prop :=
  String.leb (interview_date b) (interview_date a) = true.

#[global] Instance date_desc_dec a b : Decision (date_desc a b).
Proof. unfold date_desc. apply _. Defined.

(** [get_user_interviews]:
    [SELECT * FROM interviews WHERE user_id = ? ORDER BY interview_date DESC]. *)
Definition get_user_interviews (db : Store) (uid : Z) : list Interview :=
  merge_sort date_desc (filter (fun r => user_id r = uid) (interviews db)).

(** [get_interview_by_id]: [fetchone] of
    [SELECT * FROM interviews WHERE interview_id = ?]. *)
Definition get_interview_by_id (db : Store) (iid : Z) : option Interview :=
  head (filter (fun r => interview_id r = iid) (interviews db)).

(** The [SET] clause of [update_interview]: the key and the owner are not
    assigned. *)
Definition set_fields (r : Interview) (company role' date status' : string)
    (prep : Z) (notes' topics : string) (now : Z) : Interview :=
  {| interview_id := interview_id r;
     user_id := user_id r;
     company_name := company;
     role := role';
     interview_date := date;
     status := status';
     preparation_level := prep;
     notes := notes';
     technical_topics := topics;
     updated_at := now |}.

(** What [sqlite3] can bind as an INTEGER: a signed 64-bit value.  Any
    other [int] makes [execute] raise [OverflowError]. *)
Definition fits_int64 (z : Z) : bool :=
  (- 2 ^ 63 <=? z)%Z && (z <=? 2 ^ 63 - 1)%Z.

(** [update_interview]: [UPDATE interviews SET ... WHERE interview_id = ?],
    then [return True]; [now] is the value of [datetime.now()].  When the
    level or the id cannot be bound, [execute] raises inside the [try],
    nothing is written and the [except] branch returns [False]. *)
Definition update_interview (db : Store) (iid : Z)
    (company role' date status' : string) (prep : Z)
    (notes' topics : string) (now : Z) : bool * Store :=
  if fits_int64 prep && fits_int64 iid then
    (true,
     with_interviews db
       (map (fun r => if decide (interview_id r = iid)
                      then set_fields r company role' date status' prep
                                      notes' topics now
                      else r)
            (interviews db)))
  else (false, db).

(** [delete_interview]: [DELETE FROM interviews WHERE interview_id = ?],
    then [return True]; [False] from the [except] branch when the id
    cannot be bound. *)
Definition delete_interview (db : Store) (iid : Z) : bool * Store :=
  if fits_int64 iid then
    (true,
     with_interviews db
       (filter (fun r => interview_id r <> iid) (interviews db)))
  else (false, db).

(** *** [get_status_counts] *)

(** [GROUP BY status] with [COUNT( * )]: one output row per distinct
    status, carrying the number of input rows that have it. *)
Fixpoint bump (s : string) (groups : list (string * nat))
  : list (string * nat) :=
  match groups with
  | [] => [(s, 1%nat)]
  | (k, c) :: rest =>
      if decide (k = s) then (k, S c) :: rest else (k, c) :: bump s rest
  end.

Definition group_by_status (rows : list Interview) : list (string * nat) :=
  foldr (fun r groups => bump (status r) groups) [] rows.

(** The count that the rows of a [GROUP BY] give for a status; 0 when the
    status has no group. *)
Fixpoint count_of (k : string) (gs : list (string * nat)) : nat :=
  match gs with
  | [] => 0%nat
  | (k0, c) :: rest => if decide (k0 = k) then c else count_of k rest
  end.

Definition status_keys : list string :=
  ["Applied"; "Interviewed"; "Selected"; "Rejected"].

(** [{status: 0 for status in [...]}] *)
Definition zero_counts : gmap string nat :=
  list_to_map ((fun s => (s, 0%nat)) <$> status_keys).

(** [for row in rows: result[row['status']] = row['count']] *)
Definition fill (result : gmap string nat) (rows : list (string * nat))
  : gmap string nat :=
  foldl (fun acc row => <[row.1 := row.2]> acc) result rows.

Definition get_status_counts (db : Store) (uid : Z) : gmap string nat :=
  fill zero_counts
    (group_by_status (filter (fun r => user_id r = uid) (interviews db))).

(** [sum(result.values())] *)
Definition sum_values (m : gmap string nat) : nat :=
  sum_list ((map_to_list m).*2).

End DatabaseManager.

(** ** [AuthManager.signup] *)

Module AuthManager.

(** ['@' in email] *)
Fixpoint has_at (s : string) : bool :=
  match s with
  | EmptyString => false
  | String c rest => bool_decide (c = "@"%char) || has_at rest
  end.

Definition is_empty (s : string) : bool := bool_decide (s = EmptyString).

Section Signup.
(** [hash_password]: bcrypt of the password under a fresh salt. *)
Variable hashpw : string -> string -> string.

Definition signup (db : Store) (salt uname mail password : string)
  : (bool * string) * Store :=
  if is_empty uname || is_empty mail || is_empty password then
    ((false, "All fields are required"), db)
  else if (String.length uname <? 3)%nat then
    ((false, "Username must be at least 3 characters"), db)
  else if (String.length password <? 6)%nat then
    ((false, "Password must be at least 6 characters"), db)
  else if negb (has_at mail) then
    ((false, "Invalid email format"), db)
  else
    let password_hash := hashpw password salt in
    let '(success, db') :=
      DatabaseManager.create_user db uname mail password_hash in
    if success then
      ((true, "Account created successfully! Please login."), db')
    else
      ((false, "Username or email already exists"), db').
End Signup.

End AuthManager.

(** ** The analytics arithmetic *)

(** [len(df[df['status'] == 'Selected'])] and friends. *)
Definition with_status (s : string) (df : list Interview) : list Interview :=
  filter (fun r => status r = s) df.

Definition with_prep (level : Z) (df : list Interview) : list Interview :=
  filter (fun r => preparation_level r = level) df.

Definition Qnat (n : nat) : Q := inject_Z (Z.of_nat n).

(** [selected / total * 100] *)
Definition percentage (selected total : nat) : Q :=
  (Qnat selected / Qnat total * 100)%Q.

Definition Qltb (a b : Q) : bool := negb (Qle_bool b a).

Module Dashboard.

Record SuccessRow : Type := mkSuccessRow {
  sr_level : Z;            (* 'Preparation Level' *)
  sr_rate : Q;             (* 'Success Rate (%)' *)
  sr_total : nat           (* 'Total Interviews' *)
}.

(** The body of [for prep_level in range(1, 6)]. *)
Definition success_row (df : list Interview) (prep_level : Z)
  : option SuccessRow :=
  let prep_df := with_prep prep_level df in
  let total := length prep_df in
  if (0 <? total)%nat then
    let selected := length (with_status "Selected" prep_df) in
    Some (mkSuccessRow prep_level (percentage selected total) total)
  else None.

Definition success_data (df : list Interview) : list SuccessRow :=
  omap (success_row df) [1; 2; 3; 4; 5].

End Dashboard.

Module AIInsights.

Record PrepRow : Type := mkPrepRow {
  pr_level : Z;            (* 'Preparation Level' *)
  pr_total : nat;          (* 'Total' *)
  pr_selected : nat;       (* 'Selected' *)
  pr_rejected : nat;       (* 'Rejected' *)
  pr_rate : Q              (* 'Success Rate (%)' *)
}.

(** The body of [for prep in range(1, 6)] in [_show_weak_area_detection]. *)
Definition prep_row (df : list Interview) (prep : Z) : option PrepRow :=
  let prep_df := with_prep prep df in
  if (0 <? length prep_df)%nat then
    let selected := length (with_status "Selected" prep_df) in
    let rejected := length (with_status "Rejected" prep_df) in
    Some (mkPrepRow prep (length prep_df) selected rejected
                    (percentage selected (length prep_df)))
  else None.

Definition prep_analysis (df : list Interview) : list PrepRow :=
  omap (prep_row df) [1; 2; 3; 4; 5].

(** A Python float as far as [_show_predictions] can tell: a number, or
    the NaN that [mean] returns on an empty column. *)
Inductive pyfloat : Type :=
| NaN
| Num (q : Q).

Definition fmul (a : pyfloat) (k : Q) : pyfloat :=
  match a with NaN => NaN | Num q => Num (q * k)%Q end.

Definition fadd (a b : pyfloat) : pyfloat :=
  match a, b with Num p, Num q => Num (p + q)%Q | _, _ => NaN end.

(** [a < b]: false as soon as one side is NaN. *)
Definition flt (a b : pyfloat) : bool :=
  match a, b with Num p, Num q => Qltb p q | _, _ => false end.

(** [min(a, b)]: the first argument unless the second is smaller. *)
Definition pymin (a b : pyfloat) : pyfloat := if flt b a then b else a.

(** [df.tail(n)] and [df.head(n)] *)
Definition tail_rows (n : nat) (df : list Interview) : list Interview :=
  drop (length df - n) df.

Definition head_rows (n : nat) (df : list Interview) : list Interview :=
  take n df.

Definition sum_prep (df : list Interview) : Z :=
  foldr (fun r acc => preparation_level r + acc) 0 df.

(** [df['preparation_level'].mean()] *)
Definition mean_prep (df : list Interview) : pyfloat :=
  match df with
  | [] => NaN
  | _ => Num (inject_Z (sum_prep df) / Qnat (length df))%Q
  end.

Definition recent_success_rate (df : list Interview) : Q :=
  let recent_df := tail_rows 5 df in
  if (0 <? length recent_df)%nat
  then percentage (length (with_status "Selected" recent_df)) (length recent_df)
  else 0%Q.

Definition avg_recent_prep (df : list Interview) : pyfloat :=
  mean_prep (tail_rows 5 df).

(** [min(95, (avg_recent_prep * 15 + recent_success_rate * 0.5))] *)
Definition success_prob (df : list Interview) : pyfloat :=
  pymin (Num 95)
        (fadd (fmul (avg_recent_prep df) 15)
              (Num (recent_success_rate df * (1 # 2))%Q)).

Definition early_success (df : list Interview) : Q :=
  let half := (length df / 2)%nat in
  percentage (length (with_status "Selected" (head_rows half df))) half.

Definition late_success (df : list Interview) : Q :=
  let half := (length df / 2)%nat in
  percentage (length (with_status "Selected" (tail_rows half df))) half.

(** The trend of [_show_predictions]; [None] is the branch that shows
    "Add more interviews to see performance trends!". *)
Definition trend (df : list Interview) : option string :=
  if (5 <=? length df)%nat then
    Some (if Qltb (early_success df) (late_success df) then "improving"
          else if Qltb (late_success df) (early_success df) then "declining"
          else "stable")
  else None.

End AIInsights.


(** ** Further methods of [DatabaseManager] *)

Module DatabaseOps.

(** [get_user_by_username]: [fetchone] of
    [SELECT * FROM users WHERE username = ?]. *)
Definition get_user_by_username (db : Store) (uname : string) : option User :=
  head (filter (fun u => username u = uname) (users db)).

(** The [users] table together with its [last_login] column, which
    [update_last_login] writes: the timestamp under a user's key, no entry
    while the column is NULL. *)
Record AuthDb : Type := mkAuthDb {
  auth_store : Store;
  last_login : gmap Z Z
}.

(** [update_last_login]:
    [UPDATE users SET last_login = ? WHERE user_id = ?], [now] being the
    value of [datetime.now()]. *)
Definition update_last_login (adb : AuthDb) (now uid : Z) : AuthDb :=
  if existsb (fun u => bool_decide (u_user_id u = uid))
             (users (auth_store adb))
  then {| auth_store := auth_store adb;
          last_login := <[uid := now]> (last_login adb) |}
  else adb.

(** [add_interview]: the [INSERT], then [return cursor.lastrowid].  The
    key [rowid] that SQLite gives the new row and the value [stamp] that
    the table's default gives [updated_at] come from the database, so they
    are inputs here. *)
Definition add_interview (db : Store) (rowid stamp : Z) (uid : Z)
    (company role' date status' : string) (prep : Z)
    (notes' topics : string) : Z * Store :=
  (rowid,
   with_interviews db
     (interviews db ++
      [mkInterview rowid uid company role' date status' prep notes' topics
                   stamp])).

(** The row of [get_preparation_stats]; an aggregate over no rows is NULL,
    here [None]. *)
Record PrepStats : Type := mkPrepStats {
  avg_prep : option Q;
  min_prep : option Z;
  max_prep : option Z;
  total_interviews : nat
}.

Definition sum_levels (levels : list Z) : Z := foldr Z.add 0 levels.

Section PreparationStats.
(** [AVG] over a column that is not empty: the binary64 number that SQLite
    computes for it, which need not be the exact mean. *)
Variable sql_avg : list Z -> Q.

(** [get_preparation_stats]: [AVG], [MIN], [MAX] of [preparation_level]
    and [COUNT( * )] over the rows of a user. *)
Definition get_preparation_stats (db : Store) (uid : Z) : PrepStats :=
  let levels :=
    preparation_level <$> filter (fun r => user_id r = uid) (interviews db) in
  match levels with
  | [] => mkPrepStats None None None 0
  | x :: rest =>
      mkPrepStats (Some (sql_avg levels))
                  (Some (foldr Z.min x rest))
                  (Some (foldr Z.max x rest))
                  (length levels)
  end.
End PreparationStats.

(** A row of [interview_skills]. *)
Record Skill : Type := mkSkill {
  skill_interview_id : Z;
  skill_name : string;
  skill_score : Z
}.

Record SkillDb : Type := mkSkillDb {
  skill_store : Store;
  interview_skills : list Skill
}.

(** [add_interview_skill]: the [INSERT]; nothing looks the interview up. *)
Definition add_interview_skill (sdb : SkillDb) (iid : Z) (name : string)
    (score : Z) : SkillDb :=
  {| skill_store := skill_store sdb;
     interview_skills := interview_skills sdb ++ [mkSkill iid name score] |}.

(** [interview_skills s JOIN interviews i ON s.interview_id = i.interview_id
    WHERE i.user_id = ?]: a skill row once for every interview row of the
    user that it matches. *)
Definition joined_skills (sdb : SkillDb) (uid : Z) : list Skill :=
  s ← interview_skills sdb;
  ((fun _ => s) <$>
     filter (fun i => interview_id i = skill_interview_id s /\ user_id i = uid)
            (interviews (skill_store sdb))).

(** The distinct values of a column, in the order of their first
    occurrence. *)
Fixpoint distinct (l : list string) : list string :=
  match l with
  | [] => []
  | x :: rest => x :: filter (fun y => y <> x) (distinct rest)
  end.

Record SkillRow : Type := mkSkillRow {
  sk_name : string;        (* skill_name *)
  sk_avg_score : Q;        (* avg_score *)
  sk_count : nat           (* count *)
}.

(** One group of [GROUP BY s.skill_name]: [AVG(s.skill_score)] and
    [COUNT( * )]. *)
Definition skill_group (rows : list Skill) (name : string) : SkillRow :=
  let group := filter (fun s => skill_name s = name) rows in
  mkSkillRow name
    (inject_Z (sum_levels (skill_score <$> group)) / Qnat (length group))%Q
    (length group).

(** [ORDER BY avg_score ASC] *)
Definition avg_asc (a b : SkillRow) : Prop :=
  (sk_avg_score a <= sk_avg_score b)%Q.

#[global] Instance avg_asc_dec a b : Decision (avg_asc a b).
Proof.
  unfold avg_asc.
  destruct (Qlt_le_dec (sk_avg_score b) (sk_avg_score a)) as [H|H].
  - right. by apply Qlt_not_le.
  - by left.
Defined.

(** [get_skill_analysis] *)
Definition get_skill_analysis (sdb : SkillDb) (uid : Z) : list SkillRow :=
  let rows := joined_skills sdb uid in
  merge_sort avg_asc (skill_group rows <$> distinct (skill_name <$> rows)).

End DatabaseOps.


(** ** [AuthManager.login] and the session *)

Module Login.

Section Login.
(** [verify_password]: [bcrypt.checkpw] of the password against the stored
    hash. *)
Variable checkpw : string -> string -> bool.

(** [login]; the third component is [user_data], [None] for [{}]. *)
Definition login (adb : DatabaseOps.AuthDb) (now : Z)
    (uname password : string)
  : (bool * string * option User) * DatabaseOps.AuthDb :=
  if AuthManager.is_empty uname || AuthManager.is_empty password then
    ((false, "Username and password are required", None), adb)
  else
    match DatabaseOps.get_user_by_username (DatabaseOps.auth_store adb) uname
    with
    | None => ((false, "Invalid username or password", None), adb)
    | Some user =>
        if checkpw password (password_hash user) then
          ((true, "Login successful!", Some user),
           DatabaseOps.update_last_login adb now (u_user_id user))
        else ((false, "Invalid username or password", None), adb)
    end.
End Login.

(** A value held in [st.session_state]. *)
Inductive pyval : Type :=
| VNone
| VInt (n : Z)
| VStr (s : string).

#[global] Instance pyval_eq_dec : EqDecision pyval.
Proof. solve_decision. Defined.

(** [logout]: [for key in list(st.session_state.keys()): del ...]. *)
Definition logout (session : gmap string pyval) : gmap string pyval :=
  foldl (fun st key => delete key st) session (map_to_list session).*1.

(** [is_logged_in] *)
Definition is_logged_in (session : gmap string pyval) : bool :=
  match session !! "user_id" with
  | Some v => negb (bool_decide (v = VNone))
  | None => false
  end.

(** [get_current_user_id]: [session_state.get('user_id', None)] *)
Definition get_current_user_id (session : gmap string pyval) : pyval :=
  default VNone (session !! "user_id").

(** [get_current_username]: [session_state.get('username', 'Guest')] *)
Definition get_current_username (session : gmap string pyval) : pyval :=
  default (VStr "Guest") (session !! "username").

(** The login form of [show_auth_page] on a successful [login]: the three
    assignments to the session. *)
Definition set_session_user (session : gmap string pyval) (user : User)
  : gmap string pyval :=
  <["email" := VStr (email user)]>
    (<["username" := VStr (username user)]>
       (<["user_id" := VInt (u_user_id user)]> session)).

End Login.

(** ** [InterviewManager] ([modules/interviews.py]) *)

Module InterviewManager.

(** What the form reports on submit. *)
Inductive FormResult : Type :=
| RequiredMissing      (* "Company Name and Role are required!" *)
| Updated              (* "Interview updated successfully!" *)
| UpdateFailed         (* "Failed to update interview" *)
| Added                (* "Interview added successfully!" *)
| AddFailed.           (* "Failed to add interview" *)

(** [existing_interview] of [show_interview_form]: looked up only when
    [interview_id] is neither [None] nor 0. *)
Definition existing_interview (db : Store) (interview_id : option Z)
  : option Interview :=
  match interview_id with
  | Some iid =>
      if bool_decide (iid = 0) then None
      else DatabaseManager.get_interview_by_id db iid
  | None => None
  end.

(** The [if submit:] branch of [show_interview_form], as far as the store
    and the message go (the reset of [editing_interview_id] and the rerun
    are the session's).  [date] is [str(interview_date)]; [now], [rowid]
    and [stamp] are what the two store methods take from the clock and the
    database. *)
Definition submit_form (db : Store) (uid : Z) (interview_id : option Z)
    (company role' date status' : string) (prep : Z)
    (notes' topics : string) (now rowid stamp : Z) : FormResult * Store :=
  if AuthManager.is_empty company || AuthManager.is_empty role' then
    (RequiredMissing, db)
  else
    match existing_interview db interview_id with
    | Some _ =>
        let '(success, db') :=
          DatabaseManager.update_interview db (default 0 interview_id)
            company role' date status' prep notes' topics now in
        if success then (Updated, db') else (UpdateFailed, db')
    | None =>
        let '(new_id, db') :=
          DatabaseOps.add_interview db rowid stamp uid company role' date
            status' prep notes' topics in
        if bool_decide (new_id = 0) then (AddFailed, db') else (Added, db')
    end.

Definition date_asc (a b : Interview) : Prop :=
  String.leb (interview_date a) (interview_date b) = true.

Definition company_asc (a b : Interview) : Prop :=
  String.leb (company_name a) (company_name b) = true.

Definition prep_desc (a b : Interview) : Prop :=
  preparation_level b <= preparation_level a.

#[global] Instance date_asc_dec a b : Decision (date_asc a b).
Proof. unfold date_asc. apply _. Defined.

#[global] Instance company_asc_dec a b : Decision (company_asc a b).
Proof. unfold company_asc. apply _. Defined.

#[global] Instance prep_desc_dec a b : Decision (prep_desc a b).
Proof. unfold prep_desc. apply _. Defined.

(** The rows that [show_interviews_list] turns into cards, in order:
    [df[df['status'].isin(status_filter)]], then the [sort_values] of the
    chosen option. *)
Definition listed (interviews : list Interview) (status_filter : list string)
    (sort_by : string) : list Interview :=
  let filtered_df := filter (fun r => status r ∈ status_filter) interviews in
  if bool_decide (sort_by = "Interview Date (Newest)") then
    merge_sort DatabaseManager.date_desc filtered_df
  else if bool_decide (sort_by = "Interview Date (Oldest)") then
    merge_sort date_asc filtered_df
  else if bool_decide (sort_by = "Company Name") then
    merge_sort company_asc filtered_df
  else if bool_decide (sort_by = "Preparation Level") then
    merge_sort prep_desc filtered_df
  else filtered_df.

(** [show_interviews_list]: [None] when there is nothing to list, else the
    number in the header and the cards. *)
Definition show_interviews_list (db : Store) (uid : Z)
    (status_filter : list string) (sort_by : string)
  : option (nat * list Interview) :=
  let interviews := DatabaseManager.get_user_interviews db uid in
  match interviews with
  | [] => None
  | _ => Some (length interviews, listed interviews status_filter sort_by)
  end.

(** The default of the status filter. *)
Definition all_statuses : list string :=
  ["Applied"; "Interviewed"; "Selected"; "Rejected"].

End InterviewManager.

(** ** [ReminderManager] ([modules/resources.py]) *)

Module ReminderManager.

(** Timestamps count nanoseconds; this is one day. *)
Definition day : Z := 86400000000000.

(** [Timestamp.normalize()]: midnight of the same day. *)
Definition normalize (t : Z) : Z := t - t mod day.

(** What a card shows beside the date. *)
Inductive CardStatus : Type :=
| Passed                 (* red, "Passed" *)
| Today                  (* orange, "Today!" *)
| InDaysSoon (d : Z)     (* yellow, "In d days" *)
| InDaysLater (d : Z).   (* green, "In d days" *)

Section Reminders.
(** [pd.to_datetime] on an [interview_date]. *)
Variable to_datetime : string -> Z.

Definition when (r : Interview) : Z := to_datetime (interview_date r).

Definition sooner (a b : Interview) : Prop := when a <= when b.

#[global] Instance sooner_dec a b : Decision (sooner a b).
Proof. unfold sooner. apply _. Defined.

(** [upcoming] of [show_reminders_page]:
    [df[df['interview_date'] >= today].sort_values('interview_date')]. *)
Definition upcoming (now : Z) (interviews : list Interview)
  : list Interview :=
  merge_sort sooner
    (filter (fun r => normalize now <= when r) interviews).

(** [days_until]: [.days] of a time difference rounds down. *)
Definition days_until (now : Z) (r : Interview) : Z := (when r - now) / day.

(** The status indicator of [_display_interview_reminder_card]. *)
Definition card_status (now : Z) (r : Interview) : CardStatus :=
  let d := days_until now r in
  if (d <? 0)%Z then Passed
  else if (d =? 0)%Z then Today
  else if (d <=? 3)%Z then InDaysSoon d
  else InDaysLater d.
End Reminders.

End ReminderManager.


(** ** [AIInsights._show_performance_analysis] *)

Module PerformanceAnalysis.

(** [len(df[df['status'] == s]) / total * 100 if total > 0 else 0].  A frame
    built from no rows has no ['status'] column, so selecting it raises
    [KeyError]: [None].  (The page never passes such a frame.) *)
Definition rate_of (s : string) (df : list Interview) : option Q :=
  match df with
  | [] => None
  | _ :: _ =>
      Some (if (0 <? length df)%nat
            then percentage (length (with_status s df)) (length df)
            else 0%Q)
  end.

Definition success_rate (df : list Interview) : option Q :=
  rate_of "Selected" df.

Definition interview_conversion (df : list Interview) : option Q :=
  rate_of "Interviewed" df.

(** The performance rating. *)
Definition performance (df : list Interview) : option string :=
  rate ← success_rate df;
  Some (if Qltb 20 rate then "Excellent"
        else if Qltb 10 rate then "Good"
        else "Needs Improvement").

End PerformanceAnalysis.

(** ** [AIInsights._show_weak_area_detection]: the topics *)

Module WeakAreaDetection.

(** [s.split(',')] *)
Fixpoint split_comma (s : string) : list string :=
  match s with
  | EmptyString => [EmptyString]
  | String c rest =>
      if bool_decide (c = ","%char) then EmptyString :: split_comma rest
      else match split_comma rest with
           | piece :: pieces => String c piece :: pieces
           | [] => [String c EmptyString]
           end
  end.

(** The number of commas in a string. *)
Fixpoint count_commas (s : string) : nat :=
  match s with
  | EmptyString => 0%nat
  | String c rest =>
      ((if bool_decide (c = ","%char) then 1 else 0) + count_commas rest)%nat
  end.

(** [','.join(pieces)] *)
Fixpoint join_comma (pieces : list string) : string :=
  match pieces with
  | [] => EmptyString
  | [piece] => piece
  | piece :: rest => piece ++ String ","%char (join_comma rest)
  end.

(** An entry of [topics_data]. *)
Record TopicAttempt : Type := mkTopicAttempt {
  ta_topic : string;       (* 'topic' *)
  ta_status : string;      (* 'status' *)
  ta_prep_level : Z        (* 'prep_level' *)
}.

(** An entry of [topic_analysis]. *)
Record TopicRow : Type := mkTopicRow {
  tr_topic : string;       (* 'Topic' *)
  tr_success_rate : Q;     (* 'Success Rate (%)' *)
  tr_avg_prep : Q;         (* 'Avg Preparation' *)
  tr_attempts : nat        (* 'Attempts' *)
}.

Definition rate_asc (a b : TopicRow) : Prop :=
  (tr_success_rate a <= tr_success_rate b)%Q.

#[global] Instance rate_asc_dec a b : Decision (rate_asc a b).
Proof.
  unfold rate_asc.
  destruct (Qlt_le_dec (tr_success_rate b) (tr_success_rate a)) as [H|H].
  - right. by apply Qlt_not_le.
  - by left.
Defined.

#[global] Instance Qlt_decision (a b : Q) : Decision (a < b)%Q.
Proof.
  destruct (Qlt_le_dec a b) as [H|H]; [by left|].
  right. by apply Qle_not_lt.
Defined.

Section Topics.
(** [t.strip()] *)
Variable strip : string -> string.

(** The attempts that one row of [df] contributes. *)
Definition row_topics (r : Interview) : list TopicAttempt :=
  if AuthManager.is_empty (technical_topics r) then []
  else (fun t => mkTopicAttempt (strip t) (status r) (preparation_level r))
         <$> split_comma (technical_topics r).

Definition topics_data (df : list Interview) : list TopicAttempt :=
  r ← df; row_topics r.

(** The body of [for topic in topics_df['topic'].unique()]. *)
Definition topic_row (data : list TopicAttempt) (topic : string) : TopicRow :=
  let topic_rows := filter (fun a => ta_topic a = topic) data in
  let total := length topic_rows in
  let selected :=
    length (filter (fun a => ta_status a = "Selected") topic_rows) in
  mkTopicRow topic
    (if (0 <? total)%nat then percentage selected total else 0%Q)
    (inject_Z (DatabaseOps.sum_levels (ta_prep_level <$> topic_rows))
     / Qnat total)%Q
    total.

(** [topic_df]: the analysis sorted by success rate. *)
Definition topic_df (df : list Interview) : list TopicRow :=
  let data := topics_data df in
  merge_sort rate_asc
    (topic_row data <$> DatabaseOps.distinct (ta_topic <$> data)).

(** [weak_topics]: [topic_df[topic_df['Success Rate (%)'] < 20].head(3)] *)
Definition weak_topics (df : list Interview) : list TopicRow :=
  take 3 (filter (fun row => (tr_success_rate row < 20)%Q) (topic_df df)).
End Topics.

End WeakAreaDetection.

(** ** Sample data *)

Module Samples.

Definition iv (iid uid : Z) (date st : string) (prep : Z) : Interview :=
  mkInterview iid uid "Acme" "SWE" date st prep EmptyString EmptyString 0.

(** Two users, three interviews; user 2 owns interview 2. *)
Definition db2 : Store :=
  {| users := [mkUser 1 "alice" "a@x.com" "h1"; mkUser 2 "bob" "b@x.com" "h2"];
     interviews := [iv 1 1 "2025-01-10" "Applied" 3;
                    iv 2 2 "2025-02-01" "Selected" 4;
                    iv 3 1 "2025-03-05" "Rejected" 3] |}.

Definition empty_db : Store := {| users := []; interviews := [] |}.

(** Four interviews: the later two selected. *)
Definition four : list Interview :=
  [iv 1 1 "2025-04-01" "Rejected" 3; iv 2 1 "2025-03-01" "Rejected" 3;
   iv 3 1 "2025-02-01" "Selected" 3; iv 4 1 "2025-01-01" "Selected" 3].

(** Five interviews: the last two selected; the third is in neither half. *)
Definition five : list Interview :=
  [iv 1 1 "2025-05-01" "Rejected" 2; iv 2 1 "2025-04-01" "Applied" 3;
   iv 3 1 "2025-03-01" "Selected" 5; iv 4 1 "2025-02-01" "Selected" 4;
   iv 5 1 "2025-01-01" "Selected" 5].

(** A stand-in for bcrypt. *)
Definition toy_hash (password salt : string) : string := salt ++ password.

End Samples.

Module MoreSamples.

(** A stand-in for [bcrypt.checkpw] that goes with [Samples.toy_hash]: the
    hash ends with the password. *)
Definition toy_check (password hashed : string) : bool :=
  String.eqb
    (String.substring (String.length hashed - String.length password)
               (String.length password) hashed)
    password.

(** [Samples.db2] with nobody logged in yet; alice's hash is ["h1"]. *)
Definition adb2 : DatabaseOps.AuthDb :=
  DatabaseOps.mkAuthDb Samples.db2 ∅.

(** User 1 has an interview whose status is none of the four. *)
Definition db_pending : Store :=
  {| users := [mkUser 1 "alice" "a@x.com" "h1"];
     interviews := [Samples.iv 1 1 "2025-01-10" "Applied" 3;
                    Samples.iv 2 1 "2025-02-01" "Pending" 4] |}.

(** [Samples.db2] with skills recorded for interviews 1 and 3 of user 1
    and interview 2 of user 2. *)
Definition sdb2 : DatabaseOps.SkillDb :=
  DatabaseOps.mkSkillDb Samples.db2
    [DatabaseOps.mkSkill 1 "SQL" 4; DatabaseOps.mkSkill 3 "SQL" 2;
     DatabaseOps.mkSkill 2 "DSA" 5; DatabaseOps.mkSkill 1 "DSA" 1].

(** Dates as days since some epoch, in nanoseconds; only the two dates of
    the sample are known. *)
Definition toy_datetime (date : string) : Z :=
  if String.eqb date "2025-01-10" then 10 * ReminderManager.day
  else if String.eqb date "2025-01-11" then 11 * ReminderManager.day
  else 0.

End MoreSamples.

(** * Properties *)

Import DatabaseManager.

(** ** The order on dates *)

Section StringOrder.

Lemma ascii_compare_trans_lt (a b c : ascii) :
  Ascii.compare a b = Lt -> Ascii.compare b c = Lt -> Ascii.compare a c = Lt.
Proof.
  unfold Ascii.compare. rewrite !N.compare_lt_iff. apply N.lt_trans.
Qed.

Lemma ascii_compare_refl (a : ascii) : Ascii.compare a a = Eq.
Proof. unfold Ascii.compare. apply N.compare_refl. Qed.

Lemma string_compare_trans_lt (s1 : string) :
  forall s2 s3,
    String.compare s1 s2 = Lt -> String.compare s2 s3 = Lt ->
    String.compare s1 s3 = Lt.
Proof.
  induction s1 as [|c1 s1 IH]; intros [|c2 s2] [|c3 s3]; simpl; try done.
  destruct (Ascii.compare c1 c2) eqn:H12; try done;
    destruct (Ascii.compare c2 c3) eqn:H23; try done; intros Ha Hb.
  - apply Ascii.compare_eq_iff in H12, H23. subst.
    rewrite ascii_compare_refl. eauto.
  - apply Ascii.compare_eq_iff in H12. subst. by rewrite H23.
  - apply Ascii.compare_eq_iff in H23. subst. by rewrite H12.
  - by rewrite (ascii_compare_trans_lt _ _ _ H12 H23).
Qed.

Lemma string_leb_iff (s1 s2 : string) :
  String.leb s1 s2 = true <-> String.compare s1 s2 = Lt \/ s1 = s2.
Proof.
  unfold String.leb. destruct (String.compare s1 s2) eqn:Hc.
  - apply String.compare_eq_iff in Hc. naive_solver.
  - naive_solver.
  - split; [done|]. intros [?| ->]; [done|].
    assert (String.compare s2 s2 = Eq) as He; [|congruence].
    clear Hc. induction s2 as [|c s IH]; [done|].
    simpl. by rewrite ascii_compare_refl.
Qed.

Lemma string_leb_trans (s1 s2 s3 : string) :
  String.leb s1 s2 = true -> String.leb s2 s3 = true ->
  String.leb s1 s3 = true.
Proof.
  rewrite !string_leb_iff. intros [H1| ->] [H2| ->]; auto.
  left. eapply string_compare_trans_lt; eauto.
Qed.

#[global] Instance date_desc_trans : Transitive date_desc.
Proof. intros a b c Hab Hbc. unfold date_desc in *.
       eapply string_leb_trans; eauto. Qed.

#[global] Instance date_desc_total : Total date_desc.
Proof. intros a b. unfold date_desc.
       destruct (String.leb_total (interview_date a) (interview_date b));
         auto. Qed.

End StringOrder.

(** ** Reading the interviews of a user *)

Lemma get_user_interviews_perm (db : Store) (uid : Z) :
  get_user_interviews db uid ≡ₚ
  filter (fun r => user_id r = uid) (interviews db).
Proof. apply merge_sort_Permutation. Qed.

Lemma elem_of_get_user_interviews (db : Store) (uid : Z) (r : Interview) :
  r ∈ get_user_interviews db uid <-> r ∈ interviews db /\ user_id r = uid.
Proof.
  rewrite get_user_interviews_perm, list_elem_of_filter. tauto.
Qed.

(** C4. [get_user_interviews] returns exactly the rows of the table whose
    [user_id] is the one asked for, each as often as the table holds it,
    and in descending order of [interview_date]: every row's date is at
    least the date of every row after it. *)
Theorem get_user_interviews_exact_and_sorted (db : Store) (uid : Z) :
  get_user_interviews db uid ≡ₚ
    filter (fun r => user_id r = uid) (interviews db)
  /\ (forall r, r ∈ get_user_interviews db uid <->
                r ∈ interviews db /\ user_id r = uid)
  /\ StronglySorted date_desc (get_user_interviews db uid)
  /\ (forall i j a b, (i < j)%nat ->
        get_user_interviews db uid !! i = Some a ->
        get_user_interviews db uid !! j = Some b ->
        String.leb (interview_date b) (interview_date a) = true).
Proof.
  assert (Hs : StronglySorted date_desc (get_user_interviews db uid))
    by apply (StronglySorted_merge_sort date_desc).
  split; [apply get_user_interviews_perm|].
  split; [apply elem_of_get_user_interviews|].
  split; [exact Hs|].
  revert Hs. generalize (get_user_interviews db uid) as l.
  induction l as [|x l IH]; intros Hs i j a b Hij Hi Hj; [done|].
  apply StronglySorted_inv in Hs as [Hs Hall].
  destruct j as [|j]; [lia|]. simpl in Hj.
  destruct i as [|i]; simpl in Hi.
  - injection Hi as ->. rewrite Forall_forall in Hall.
    apply Hall. by eapply list_elem_of_lookup_2.
  - eapply (IH Hs i j); eauto. lia.
Qed.
(** ** Updating and deleting by id *)

Example fits_int64_edges :
  fits_int64 (2 ^ 63 - 1) = true /\ fits_int64 (2 ^ 63) = false
  /\ fits_int64 (- 2 ^ 63) = true /\ fits_int64 (- 2 ^ 63 - 1) = false.
Proof. repeat split; reflexivity. Qed.

Section Crud.

Variables (company role' date status' : string) (prep : Z)
          (notes' topics : string) (now : Z).

Local Abbreviation update db iid :=
  (update_interview db iid company role' date status' prep notes' topics now).
Local Abbreviation fields r :=
  (set_fields r company role' date status' prep notes' topics now).

(** [update_interview] returns [True] exactly when the level and the id
    can be bound. *)
Lemma update_interview_flag (db : Store) (iid : Z) :
  (update db iid).1 = fits_int64 prep && fits_int64 iid.
Proof. unfold update_interview. by case_match. Qed.

Lemma update_interview_fails (db : Store) (iid : Z) :
  fits_int64 prep && fits_int64 iid = false -> update db iid = (false, db).
Proof. intros H. unfold update_interview. by rewrite H. Qed.

Lemma update_interview_runs (db : Store) (iid : Z) :
  fits_int64 prep && fits_int64 iid = true ->
  update db iid =
  (true,
   with_interviews db
     ((fun r => if decide (interview_id r = iid) then fields r else r)
        <$> interviews db)).
Proof. intros H. unfold update_interview. by rewrite H. Qed.

Lemma update_interview_users (db : Store) (iid : Z) :
  users (update db iid).2 = users db.
Proof. unfold update_interview. by case_match. Qed.

Lemma update_interview_lookup (db : Store) (iid : Z) (i : nat) :
  fits_int64 prep && fits_int64 iid = true ->
  interviews (update db iid).2 !! i =
  (fun r => if decide (interview_id r = iid) then fields r else r)
    <$> interviews db !! i.
Proof.
  intros H. rewrite update_interview_runs by done. simpl.
  apply list_lookup_fmap.
Qed.

Lemma update_interview_length (db : Store) (iid : Z) :
  length (interviews (update db iid).2) = length (interviews db).
Proof.
  unfold update_interview. case_match; [|done]. simpl. apply length_map.
Qed.

(** [delete_interview] returns [True] exactly when the id can be bound. *)
Lemma delete_interview_flag (db : Store) (iid : Z) :
  (delete_interview db iid).1 = fits_int64 iid.
Proof. unfold delete_interview. by case_match. Qed.

Lemma delete_interview_fails (db : Store) (iid : Z) :
  fits_int64 iid = false -> delete_interview db iid = (false, db).
Proof. intros H. unfold delete_interview. by rewrite H. Qed.

Lemma delete_interview_runs (db : Store) (iid : Z) :
  fits_int64 iid = true ->
  delete_interview db iid =
  (true,
   with_interviews db
     (filter (fun r => interview_id r <> iid) (interviews db))).
Proof. intros H. unfold delete_interview. by rewrite H. Qed.

Lemma elem_of_delete_interview (db : Store) (iid : Z) (r : Interview) :
  (delete_interview db iid).1 = true ->
  r ∈ interviews (delete_interview db iid).2 <->
  r ∈ interviews db /\ interview_id r <> iid.
Proof.
  rewrite delete_interview_flag. intros H.
  rewrite delete_interview_runs by done. simpl.
  rewrite list_elem_of_filter. tauto.
Qed.

(** Whether or not the delete runs, the rows with another id stay. *)
Lemma elem_of_delete_interview_other (db : Store) (iid : Z) (r : Interview) :
  interview_id r <> iid ->
  r ∈ interviews (delete_interview db iid).2 <-> r ∈ interviews db.
Proof.
  intros Hne. unfold delete_interview. case_match; [|done]. simpl.
  rewrite list_elem_of_filter. tauto.
Qed.

Lemma delete_interview_users (db : Store) (iid : Z) :
  users (delete_interview db iid).2 = users db.
Proof. unfold delete_interview. by case_match. Qed.

Lemma map_update_absent (rows : list Interview) (iid : Z) :
  (forall r, r ∈ rows -> interview_id r <> iid) ->
  (fun r => if decide (interview_id r = iid) then fields r else r) <$> rows
  = rows.
Proof.
  induction rows as [|r rows IH]; intros Habs; [done|].
  rewrite fmap_cons, decide_False by (apply Habs; left).
  f_equal. apply IH. intros r' Hr'. apply Habs. by right.
Qed.

(** C1, as the code has it.  [update_interview] for an id that no row of
    [interviews] carries leaves the store exactly as it was.  It returns
    [True] whenever the statement runs, that is when the id and the new
    level fit in 64 bits: the statement matches no row, nothing raises, and
    the method has no other way to report a missing row.  It returns
    [False] only when binding the id or the level raises. *)
Theorem update_interview_missing_id (db : Store) (iid : Z) :
  (forall r, r ∈ interviews db -> interview_id r <> iid) ->
  update db iid = (fits_int64 prep && fits_int64 iid, db).
Proof.
  intros Habs.
  destruct (fits_int64 prep && fits_int64 iid) eqn:Hfits.
  - rewrite update_interview_runs by done. f_equal.
    rewrite map_update_absent by done. by destruct db.
  - by apply update_interview_fails.
Qed.

(** C9. Neither [update_interview] nor [delete_interview] looks at the
    owner.  Whatever the [user_id] of a stored row with the given id, an
    update with a level that SQLite can store returns [True] and puts the
    new company, role, date, status, level, notes, topics and time into
    that row, in place, with its id and its owner kept, leaving the rows
    with another id alone; and the delete returns [True] and leaves no row
    with that id, while rows with another id are kept. *)
Theorem update_delete_ignore_owner (db : Store) (iid : Z) (i : nat)
    (r : Interview) :
  interviews db !! i = Some r -> interview_id r = iid ->
  fits_int64 iid = true -> fits_int64 prep = true ->
  ((update db iid).1 = true
   /\ interviews (update db iid).2 !! i
      = Some (mkInterview iid (user_id r) company role' date status' prep
                          notes' topics now)
   /\ (forall j r', interviews db !! j = Some r' -> interview_id r' <> iid ->
                    interviews (update db iid).2 !! j = Some r'))
  /\ ((delete_interview db iid).1 = true
      /\ ~ r ∈ interviews (delete_interview db iid).2
      /\ (forall r', r' ∈ interviews (delete_interview db iid).2 ->
                     interview_id r' <> iid)
      /\ (forall r', r' ∈ interviews db -> interview_id r' <> iid ->
                     r' ∈ interviews (delete_interview db iid).2)).
Proof.
  intros Hi Hid Hfid Hfprep.
  assert (Hrun : fits_int64 prep && fits_int64 iid = true)
    by by rewrite Hfid, Hfprep.
  assert (Hdel : (delete_interview db iid).1 = true)
    by by rewrite delete_interview_flag.
  split.
  - split; [by rewrite update_interview_flag|]. split.
    + rewrite update_interview_lookup, Hi by done. simpl.
      rewrite decide_True by done. unfold set_fields. by rewrite Hid.
    + intros j r' Hj Hne. rewrite update_interview_lookup, Hj by done.
      simpl. by rewrite decide_False.
  - split; [done|]. split; [|split].
    + rewrite elem_of_delete_interview by done. tauto.
    + intros r'. rewrite elem_of_delete_interview by done. tauto.
    + intros r' ? ?. rewrite elem_of_delete_interview by done. tauto.
Qed.

End Crud.

(** C5. [delete_interview] returns [True] for every id that can be bound,
    so for every id that a stored row can carry; and after a
    [delete_interview] that returned [True], [get_interview_by_id] for that
    id returns [None] and no user's [get_user_interviews] holds a row with
    that id. *)
Theorem delete_then_lookup (db : Store) (iid : Z) :
  (fits_int64 iid = true -> (delete_interview db iid).1 = true)
  /\ ((delete_interview db iid).1 = true ->
      get_interview_by_id (delete_interview db iid).2 iid = None
      /\ (forall uid r,
            r ∈ get_user_interviews (delete_interview db iid).2 uid ->
            interview_id r <> iid)).
Proof.
  split; [by rewrite delete_interview_flag|].
  intros Hok. split.
  - unfold get_interview_by_id.
    destruct (filter _ (interviews _)) as [|r l] eqn:Hf; [done|].
    assert (Hr : r ∈ r :: l) by left. rewrite <- Hf in Hr.
    apply list_elem_of_filter in Hr as [Heq Hr].
    apply elem_of_delete_interview in Hr as [_ Hne]; done.
  - intros uid r. rewrite elem_of_get_user_interviews.
    intros [Hr _]. apply elem_of_delete_interview in Hr; tauto.
Qed.

(** What the delete keeps: the rows with another id, for every user, and
    the lookup of every other id. *)
Lemma delete_interview_keeps_others (db : Store) (iid : Z) :
  (forall uid r, interview_id r <> iid ->
     (r ∈ get_user_interviews (delete_interview db iid).2 uid <->
      r ∈ get_user_interviews db uid))
  /\ (forall other, other <> iid ->
        get_interview_by_id (delete_interview db iid).2 other =
        get_interview_by_id db other).
Proof.
  split.
  - intros uid r Hne. rewrite !elem_of_get_user_interviews.
    rewrite elem_of_delete_interview_other by done. tauto.
  - intros other Hne. unfold get_interview_by_id, delete_interview.
    case_match; [|done]. simpl. f_equal.
    induction (interviews db) as [|r l IH]; [done|].
    rewrite !filter_cons. repeat case_decide; subst;
      rewrite ?filter_cons, ?decide_True, ?decide_False by done;
      try done; by rewrite IH.
Qed.

(** C1 as the claim words it fails: the id 99 is in no row of [db2], yet
    the update returns [True], not [False]. *)
Lemma update_missing_id_reports_true :
  (forall r, r ∈ interviews Samples.db2 -> interview_id r <> 99)
  /\ (update_interview Samples.db2 99 "Acme" "SWE" "2025-06-01" "Selected" 5
        "n" "t" 7).1 <> false.
Proof.
  split; [|done].
  intros r Hr. unfold Samples.db2 in Hr. simpl in Hr.
  repeat (apply elem_of_cons in Hr as [->|Hr]; [done|]).
  by apply elem_of_nil in Hr.
Qed.

Lemma update_interview_missing_id_witness :
  update_interview Samples.db2 99 "Acme" "SWE" "2025-06-01" "Selected" 5
    "n" "t" 7 = (true, Samples.db2).
Proof.
  apply (update_interview_missing_id "Acme" "SWE" "2025-06-01" "Selected" 5
           "n" "t" 7 Samples.db2 99).
  intros r Hr. unfold Samples.db2 in Hr. simpl in Hr.
  repeat (apply elem_of_cons in Hr as [->|Hr]; [done|]).
  by apply elem_of_nil in Hr.
Defined.

(** The other outcome for a missing id: a level that cannot be bound makes
    the update return [False]; the store is unchanged all the same. *)
Example update_missing_id_unbindable_level :
  update_interview Samples.db2 99 "Acme" "SWE" "2025-06-01" "Selected"
    (2 ^ 63) "n" "t" 7 = (false, Samples.db2).
Proof. reflexivity. Qed.

(** User 1 (or anybody) can rewrite and delete interview 2, which user 2
    owns. *)
Lemma update_delete_ignore_owner_witness :
  let r := Samples.iv 2 2 "2025-02-01" "Selected" 4 in
  let upd := update_interview Samples.db2 2 "Evil" "None" "1999-01-01"
               "Rejected" 1 "n" "t" 7 in
  (upd.1 = true
   /\ interviews upd.2 !! 1%nat
      = Some (mkInterview 2 2 "Evil" "None" "1999-01-01" "Rejected" 1
                          "n" "t" 7)
   /\ (forall j r', interviews Samples.db2 !! j = Some r' ->
                    interview_id r' <> 2 -> interviews upd.2 !! j = Some r'))
  /\ ((delete_interview Samples.db2 2).1 = true
      /\ ~ r ∈ interviews (delete_interview Samples.db2 2).2
      /\ (forall r', r' ∈ interviews (delete_interview Samples.db2 2).2 ->
                     interview_id r' <> 2)
      /\ (forall r', r' ∈ interviews Samples.db2 -> interview_id r' <> 2 ->
                     r' ∈ interviews (delete_interview Samples.db2 2).2)).
Proof.
  intros r upd.
  apply (update_delete_ignore_owner "Evil" "None" "1999-01-01" "Rejected" 1
           "n" "t" 7 Samples.db2 2 1 r); reflexivity.
Defined.

(** ** Status counts *)

Section StatusCounts.

Implicit Types (gs : list (string * nat)) (m : gmap string nat)
               (rows : list Interview) (s k : string).

Lemma bump_keys s gs :
  (bump s gs).*1 = if decide (s ∈ gs.*1) then gs.*1 else (gs.*1 ++ [s])%list.
Proof.
  induction gs as [|[k c] gs IH]; [done|].
  rewrite fmap_cons. simpl bump.
  destruct (decide (k = s)) as [->|Hne].
  - rewrite fmap_cons. simpl. rewrite decide_True; [done|]. left.
  - rewrite fmap_cons, IH. simpl.
    destruct (decide (s ∈ gs.*1)) as [Hin|Hnin].
    + rewrite decide_True; [done|]. by right.
    + rewrite decide_False; [done|].
      intros [?|?]%elem_of_cons; congruence.
Qed.

Lemma bump_NoDup s gs : NoDup gs.*1 -> NoDup (bump s gs).*1.
Proof.
  intros Hnd. rewrite bump_keys. case_decide; [done|].
  apply NoDup_app. split; [done|]. split.
  - intros x Hx ->%list_elem_of_singleton. done.
  - apply NoDup_singleton.
Qed.

Lemma bump_sum s gs : sum_list (bump s gs).*2 = S (sum_list gs.*2).
Proof.
  induction gs as [|[k c] gs IH]; [done|]. simpl bump.
  case_decide; rewrite !fmap_cons; cbn [sum_list_with snd id]; [done|].
  rewrite IH. lia.
Qed.

Lemma count_of_bump s gs k :
  count_of k (bump s gs) =
  if decide (k = s) then S (count_of s gs) else count_of k gs.
Proof.
  induction gs as [|[k0 c] gs IH]; simpl.
  - repeat case_decide; congruence.
  - repeat (case_decide; simpl); subst; try congruence.
    all: rewrite IH; rewrite ?decide_True, ?decide_False by done; done.
Qed.

Lemma group_by_status_NoDup rows : NoDup (group_by_status rows).*1.
Proof.
  induction rows as [|r rows IH]; simpl; [constructor|].
  by apply bump_NoDup.
Qed.

Lemma group_by_status_sum rows :
  sum_list (group_by_status rows).*2 = length rows.
Proof.
  induction rows as [|r rows IH]; simpl; [done|].
  by rewrite bump_sum, IH.
Qed.

(** [GROUP BY]: the count of a group is the number of rows with its
    status, and a status has a group exactly when some row has it. *)
Lemma group_by_status_count rows k :
  count_of k (group_by_status rows) = length (with_status k rows).
Proof.
  induction rows as [|r rows IH]; [done|].
  simpl group_by_status. rewrite count_of_bump.
  unfold with_status in *. rewrite filter_cons.
  destruct (decide (k = status r)) as [->|Hne].
  - rewrite decide_True by done. simpl. by rewrite IH.
  - rewrite decide_False by done. done.
Qed.

Lemma group_by_status_keys rows k :
  k ∈ (group_by_status rows).*1 <-> (0 < length (with_status k rows))%nat.
Proof.
  induction rows as [|r rows IH].
  - simpl. split; [by intros ?%elem_of_nil|lia].
  - simpl group_by_status. rewrite bump_keys.
    unfold with_status in *. rewrite filter_cons.
    destruct (decide (status r = k)) as [<-|Hne]; simpl.
    + split; [lia|intros _]. case_decide; [done|].
      apply elem_of_app. right. left.
    + rewrite <- IH. case_decide; [done|].
      rewrite elem_of_app, list_elem_of_singleton.
      split; [|by left]. intros [?|?]; [done|congruence].
Qed.

Lemma sum_values_insert_None m k (c : nat) :
  m !! k = None -> sum_values (<[k:=c]> m) = (c + sum_values m)%nat.
Proof.
  intros Hk. unfold sum_values. by rewrite map_to_list_insert.
Qed.

Lemma sum_values_insert_zero m k (c : nat) :
  m !! k = None \/ m !! k = Some 0%nat ->
  sum_values (<[k:=c]> m) = (c + sum_values m)%nat.
Proof.
  intros [Hk|Hk]; [by apply sum_values_insert_None|].
  rewrite <- (insert_delete_eq m k c).
  rewrite <- (insert_delete_id m k 0%nat Hk) at 2.
  rewrite !sum_values_insert_None by apply lookup_delete_eq. lia.
Qed.

Lemma sum_values_all_zero m :
  (forall k v, m !! k = Some v -> v = 0%nat) -> sum_values m = 0%nat.
Proof.
  intros Hz. unfold sum_values.
  assert (H : Forall (fun p => p.2 = 0%nat) (map_to_list m)).
  { apply Forall_forall. intros [k v] Hin%elem_of_map_to_list. eauto. }
  induction H as [|[k v] l Hv _ IH]; [done|].
  rewrite fmap_cons. cbn [sum_list_with id]. simpl in Hv. by rewrite Hv, IH.
Qed.

Lemma fill_lookup_other m gs k :
  k ∉ gs.*1 -> fill m gs !! k = m !! k.
Proof.
  revert m. induction gs as [|[k0 c0] gs IH]; intros m Hk; [done|].
  simpl in *. apply not_elem_of_cons in Hk as [Hne Hk].
  unfold fill in *. simpl. rewrite IH by done. by rewrite lookup_insert_ne.
Qed.

Lemma fill_lookup m gs k :
  NoDup gs.*1 ->
  fill m gs !! k = if decide (k ∈ gs.*1) then Some (count_of k gs) else m !! k.
Proof.
  revert m. induction gs as [|[k0 c0] gs IH]; intros m Hnd; [done|].
  rewrite fmap_cons in Hnd. apply NoDup_cons in Hnd as [Hk0 Hnd].
  change (fill m ((k0, c0) :: gs)) with (fill (<[k0:=c0]> m) gs).
  rewrite IH by done. rewrite fmap_cons. simpl.
  destruct (decide (k0 = k)) as [->|Hne].
  - rewrite decide_False by done. rewrite decide_True by left.
    apply lookup_insert_eq.
  - rewrite lookup_insert_ne by done.
    destruct (decide (k ∈ gs.*1)).
    + rewrite decide_True; [done|]. by right.
    + rewrite decide_False; [done|]. intros [?|?]%elem_of_cons; congruence.
Qed.

Lemma fill_sum m gs :
  NoDup gs.*1 ->
  (forall k, k ∈ gs.*1 -> m !! k = None \/ m !! k = Some 0%nat) ->
  sum_values (fill m gs) = (sum_values m + sum_list gs.*2)%nat.
Proof.
  revert m. induction gs as [|[k0 c0] gs IH]; intros m Hnd Hz.
  - simpl. lia.
  - simpl in Hnd. apply NoDup_cons in Hnd as [Hk0 Hnd].
    change (sum_values (fill (<[k0:=c0]> m) gs)
            = (sum_values m + (c0 + sum_list gs.*2))%nat).
    rewrite IH; [|done|].
    + rewrite sum_values_insert_zero; [lia|]. apply Hz. simpl. left.
    + intros k Hk. rewrite lookup_insert_ne.
      * apply Hz. simpl. by right.
      * intros ->. done.
Qed.

Lemma zero_counts_lookup k :
  zero_counts !! k = if decide (k ∈ status_keys) then Some 0%nat else None.
Proof.
  unfold zero_counts.
  cbn [fmap list_fmap list_to_map foldr uncurry fst snd status_keys].
  destruct (decide (k ∈ status_keys)) as [Hin|Hnin].
  - unfold status_keys in Hin.
    repeat (apply elem_of_cons in Hin as [->|Hin]; [by simplify_map_eq|]).
    by apply elem_of_nil in Hin.
  - unfold status_keys in Hnin.
    repeat (apply not_elem_of_cons in Hnin as [? Hnin]).
    by simplify_map_eq.
Qed.

End StatusCounts.

Lemma with_status_get_user_interviews (db : Store) (uid : Z) (k : string) :
  length (with_status k (get_user_interviews db uid)) =
  length (with_status k (filter (fun r => user_id r = uid) (interviews db))).
Proof.
  apply Permutation_length. unfold with_status.
  apply filter_Permutation, get_user_interviews_perm.
Qed.

(** What [get_status_counts] holds under each key: the number of the
    user's interviews with that status, for the four statuses and for every
    other status string that occurs; no other key. *)
Lemma get_status_counts_lookup (db : Store) (uid : Z) (k : string) :
  get_status_counts db uid !! k =
  let n := length (with_status k (get_user_interviews db uid)) in
  if decide (k ∈ status_keys \/ (0 < n)%nat) then Some n else None.
Proof.
  cbv zeta. rewrite with_status_get_user_interviews.
  unfold get_status_counts.
  set (rows := filter (fun r => user_id r = uid) (interviews db)).
  rewrite fill_lookup by apply group_by_status_NoDup.
  rewrite group_by_status_count.
  destruct (decide (k ∈ (group_by_status rows).*1)) as [Hin|Hnin].
  - apply group_by_status_keys in Hin. rewrite decide_True; [done|]. by right.
  - rewrite group_by_status_keys in Hnin.
    assert (length (with_status k rows) = 0%nat) as -> by lia.
    rewrite zero_counts_lookup. destruct (decide (k ∈ status_keys)).
    + by rewrite decide_True by (by left).
    + rewrite decide_False; [done|]. intros [?|?]; [done|lia].
Qed.

(** C2. For every store and user, whatever the status strings, the values
    of [get_status_counts] add up to the number of the user's interviews,
    and Applied, Interviewed, Selected and Rejected are keys of it. *)
Theorem get_status_counts_total (db : Store) (uid : Z) :
  sum_values (get_status_counts db uid) = length (get_user_interviews db uid)
  /\ (forall k, k ∈ ["Applied"; "Interviewed"; "Selected"; "Rejected"] ->
                is_Some (get_status_counts db uid !! k)).
Proof.
  split.
  - rewrite (get_user_interviews_perm db uid). unfold get_status_counts.
    rewrite fill_sum.
    + rewrite group_by_status_sum, sum_values_all_zero; [done|].
      intros k v. rewrite zero_counts_lookup. case_decide; congruence.
    + apply group_by_status_NoDup.
    + intros k _. rewrite zero_counts_lookup. case_decide; auto.
  - intros k Hk. rewrite get_status_counts_lookup. simpl.
    rewrite decide_True; [eauto|]. by left.
Qed.

(** ** Sign-up *)

Import AuthManager.

Section Signup.

Variable hashpw : string -> string -> string.

Implicit Types (db : Store) (salt uname mail password : string).

Lemma is_empty_length (s : string) :
  (0 < String.length s)%nat -> is_empty s = false.
Proof. destruct s; simpl; [lia|done]. Qed.

Lemma has_at_nonempty (s : string) : has_at s = true -> is_empty s = false.
Proof. by destruct s. Qed.

Lemma create_user_fails_unchanged db uname mail h :
  (create_user db uname mail h).1 = false ->
  (create_user db uname mail h).2 = db.
Proof. unfold create_user. by case_match. Qed.

(** A sign-up that reports failure has not touched the store. *)
Lemma signup_fails_unchanged db salt uname mail password :
  (signup hashpw db salt uname mail password).1.1 = false ->
  (signup hashpw db salt uname mail password).2 = db.
Proof.
  unfold signup. repeat case_match; simpl; try done.
  intros _. match goal with H : create_user _ _ _ _ = _ |- _ =>
    pose proof (create_user_fails_unchanged db uname mail
                  (hashpw password salt)) as Hc; rewrite H in Hc end.
  by apply Hc.
Qed.

(** What [signup] does on fields that pass its four checks. *)
Lemma signup_valid db salt uname mail password :
  (3 <= String.length uname)%nat -> (6 <= String.length password)%nat ->
  has_at mail = true ->
  signup hashpw db salt uname mail password =
  let '(success, db') := create_user db uname mail (hashpw password salt) in
  if success then ((true, "Account created successfully! Please login."), db')
  else ((false, "Username or email already exists"), db').
Proof.
  intros Hu Hp Hm. unfold signup.
  rewrite (is_empty_length uname), (is_empty_length password) by lia.
  rewrite (has_at_nonempty mail Hm), Hm. simpl.
  rewrite (proj2 (Nat.ltb_ge _ _) Hu), (proj2 (Nat.ltb_ge _ _) Hp). done.
Qed.

Lemma violates_unique_false (us : list User) uname mail :
  violates_unique us uname mail = false <->
  forall u, u ∈ us -> username u <> uname /\ email u <> mail.
Proof.
  unfold violates_unique. induction us as [|u us IH]; simpl.
  - split; [|done]. by intros _ u ?%elem_of_nil.
  - rewrite orb_false_iff, IH, orb_false_iff, !bool_decide_eq_false.
    split.
    + intros [[Hn He] Hrest] x [->|Hx]%elem_of_cons; auto.
    + intros H. split; [apply H; left|]. intros x Hx. apply H. by right.
Qed.

Lemma violates_unique_email (us : list User) uname mail :
  (exists u, u ∈ us /\ email u = mail) -> violates_unique us uname mail = true.
Proof.
  intros (u & Hin & He). unfold violates_unique.
  apply existsb_exists. exists u. split; [by apply list_elem_of_In|].
  rewrite orb_true_iff. right. by apply bool_decide_eq_true.
Qed.

Lemma filter_email_fresh (us : list User) mail :
  (forall u, u ∈ us -> email u <> mail) ->
  filter (fun u => email u = mail) us = [].
Proof.
  induction us as [|u us IH]; intros Hfresh; [done|].
  rewrite filter_cons, decide_False by (apply Hfresh; left).
  apply IH. intros x Hx. apply Hfresh. by right.
Qed.

(** C7. A password shorter than 6 characters makes [signup] return
    failure and leave the store as it was, whatever the username, the
    email, the salt and the store. *)
Theorem signup_short_password db salt uname mail password :
  (String.length password < 6)%nat ->
  (signup hashpw db salt uname mail password).1.1 = false
  /\ (signup hashpw db salt uname mail password).2 = db.
Proof.
  intros Hlen.
  assert (H : (signup hashpw db salt uname mail password).1.1 = false).
  { unfold signup. repeat case_match; simpl; try done.
    match goal with H : (String.length password <? 6)%nat = false |- _ =>
      apply Nat.ltb_ge in H; lia end. }
  split; [exact H|]. by apply signup_fails_unchanged.
Qed.

(** C6. On a store that holds neither the username nor the email, a
    sign-up with fields that pass the checks succeeds.  A second sign-up
    with the same email then returns failure, whatever its other fields,
    and leaves the store as the first one left it; when its fields pass the
    checks the message is the already-exists one.  Afterwards exactly one
    row of [users] carries that email. *)
Theorem signup_same_email_twice db salt1 salt2 uname1 uname2 mail pw1 pw2 :
  (3 <= String.length uname1)%nat -> (6 <= String.length pw1)%nat ->
  has_at mail = true ->
  (forall u, u ∈ users db -> username u <> uname1 /\ email u <> mail) ->
  let first := signup hashpw db salt1 uname1 mail pw1 in
  let second := signup hashpw first.2 salt2 uname2 mail pw2 in
  first.1.1 = true
  /\ second.1.1 = false
  /\ ((3 <= String.length uname2)%nat -> (6 <= String.length pw2)%nat ->
      second.1 = (false, "Username or email already exists"))
  /\ second.2 = first.2
  /\ length (filter (fun u => email u = mail) (users second.2)) = 1%nat.
Proof.
  intros Hu Hp Hm Hfresh first second.
  assert (Hfirst : first = ((true, "Account created successfully! Please login."),
            with_users db (users db ++
              [mkUser (next_user_id (users db)) uname1 mail
                      (hashpw pw1 salt1)]))).
  { unfold first. rewrite signup_valid by done. unfold create_user.
    by rewrite (proj2 (violates_unique_false _ _ _) Hfresh). }
  assert (Hdup : violates_unique (users first.2) uname2 mail = true).
  { apply violates_unique_email. rewrite Hfirst. simpl.
    eexists. split; [apply elem_of_app; right; left|done]. }
  assert (Hfail : second.1.1 = false).
  { unfold second, signup. repeat case_match; simpl; try done.
    match goal with H : create_user _ _ _ _ = _ |- _ =>
      unfold create_user in H; rewrite Hdup in H; congruence end. }
  assert (Hsame : second.2 = first.2) by by apply signup_fails_unchanged.
  split; [by rewrite Hfirst|]. split; [exact Hfail|]. split; [|split].
  - intros Hu2 Hp2. unfold second. rewrite signup_valid by done.
    unfold create_user. by rewrite Hdup.
  - exact Hsame.
  - rewrite Hsame, Hfirst. simpl. rewrite filter_app.
    rewrite filter_email_fresh by (intros u Hin; by apply Hfresh).
    rewrite filter_cons, decide_True by done. done.
Qed.

End Signup.

Lemma signup_short_password_witness :
  (signup Samples.toy_hash Samples.db2 "salt" "carol" "c@x.com" "12345").1.1
    = false
  /\ (signup Samples.toy_hash Samples.db2 "salt" "carol" "c@x.com" "12345").2
     = Samples.db2.
Proof.
  apply (signup_short_password Samples.toy_hash Samples.db2 "salt" "carol"
           "c@x.com" "12345").
  simpl. lia.
Defined.

Lemma signup_same_email_twice_witness :
  let first := signup Samples.toy_hash Samples.empty_db "s1" "alice" "a@x.com"
                 "secret1" in
  let second := signup Samples.toy_hash first.2 "s2" "alice2" "a@x.com"
                  "secret2" in
  first.1.1 = true
  /\ second.1.1 = false
  /\ ((3 <= String.length "alice2")%nat -> (6 <= String.length "secret2")%nat ->
      second.1 = (false, "Username or email already exists"))
  /\ second.2 = first.2
  /\ length (filter (fun u => email u = "a@x.com") (users second.2)) = 1%nat.
Proof.
  apply (signup_same_email_twice Samples.toy_hash Samples.empty_db "s1" "s2"
           "alice" "alice2" "a@x.com" "secret1" "secret2").
  - simpl. lia.
  - simpl. lia.
  - reflexivity.
  - intros u Hu. simpl in Hu. by apply elem_of_nil in Hu.
Defined.

(** ** Success rate by preparation level *)


Lemma success_row_Some (df : list Interview) (level : Z)
    (row : Dashboard.SuccessRow) :
  Dashboard.success_row df level = Some row <->
  (0 < length (with_prep level df))%nat
  /\ row = Dashboard.mkSuccessRow level
             (percentage (length (with_status "Selected" (with_prep level df)))
                         (length (with_prep level df)))
             (length (with_prep level df)).
Proof.
  unfold Dashboard.success_row.
  destruct (0 <? length (with_prep level df))%nat eqn:Hpos.
  - apply Nat.ltb_lt in Hpos. split; [intros [= <-]; by split|].
    by intros [_ ->].
  - apply Nat.ltb_ge in Hpos. split; [done|]. intros [? _]. lia.
Qed.

Lemma prep_row_Some (df : list Interview) (level : Z)
    (row : AIInsights.PrepRow) :
  AIInsights.prep_row df level = Some row <->
  (0 < length (with_prep level df))%nat
  /\ row = AIInsights.mkPrepRow level (length (with_prep level df))
             (length (with_status "Selected" (with_prep level df)))
             (length (with_status "Rejected" (with_prep level df)))
             (percentage (length (with_status "Selected" (with_prep level df)))
                         (length (with_prep level df))).
Proof.
  unfold AIInsights.prep_row.
  destruct (0 <? length (with_prep level df))%nat eqn:Hpos.
  - apply Nat.ltb_lt in Hpos. split; [intros [= <-]; by split|].
    by intros [_ ->].
  - apply Nat.ltb_ge in Hpos. split; [done|]. intros [? _]. lia.
Qed.



(** ** Predictions and the trend *)

Import AIInsights.

Lemma Qltb_lt (a b : Q) : Qltb a b = true <-> (a < b)%Q.
Proof.
  unfold Qltb. rewrite negb_true_iff, <- not_true_iff_false, Qle_bool_iff.
  split; [apply Qnot_le_lt|apply Qlt_not_le].
Qed.

Lemma Qltb_ge (a b : Q) : Qltb a b = false <-> (b <= a)%Q.
Proof.
  unfold Qltb. rewrite negb_false_iff. apply Qle_bool_iff.
Qed.

(** Two percentages over the same non-zero total compare as their
    numerators do. *)
Lemma percentage_lt (a b k : nat) :
  (0 < k)%nat -> (percentage a k < percentage b k)%Q <-> (a < b)%nat.
Proof.
  intros Hk. destruct k as [|k]; [lia|].
  unfold percentage, Qnat, Qlt, Qdiv, Qmult, Qinv. simpl. nia.
Qed.

Lemma percentage_eq (a b k : nat) :
  (0 < k)%nat -> (percentage a k == percentage b k)%Q <-> a = b.
Proof.
  intros Hk. destruct k as [|k]; [lia|].
  unfold percentage, Qnat, Qeq, Qdiv, Qmult, Qinv. simpl. nia.
Qed.

(** With fewer than five interviews no trend is computed. *)
Lemma trend_short (df : list Interview) :
  (length df < 5)%nat -> trend df = None.
Proof.
  intros H. unfold trend. by rewrite (proj2 (Nat.leb_gt _ _) H).
Qed.

(** C8, as the code has it.  With at least five interviews the trend
    compares the Selected percentage of the first [len // 2] rows with that
    of the last [len // 2] rows (for an odd length the middle row is in
    neither): "improving" exactly when the later percentage is the larger,
    "declining" exactly when it is the smaller, "stable" exactly when the
    two are equal; as both are taken over [len // 2] rows, that is the
    comparison of the two Selected counts. *)
Theorem trend_label (df : list Interview) :
  (5 <= length df)%nat ->
  let half := (length df / 2)%nat in
  let early := length (with_status "Selected" (take half df)) in
  let late := length (with_status "Selected" (drop (length df - half) df)) in
  early_success df = (Qnat early / Qnat half * 100)%Q
  /\ late_success df = (Qnat late / Qnat half * 100)%Q
  /\ (trend df = Some "improving" <-> (early_success df < late_success df)%Q)
  /\ (trend df = Some "declining" <-> (late_success df < early_success df)%Q)
  /\ (trend df = Some "stable" <-> (early_success df == late_success df)%Q)
  /\ (trend df = Some "improving" <-> (early < late)%nat)
  /\ (trend df = Some "declining" <-> (late < early)%nat)
  /\ (trend df = Some "stable" <-> early = late).
Proof.
  intros Hlen half early late.
  assert (Hhalf : (0 < half)%nat).
  { unfold half. apply Nat.div_str_pos. lia. }
  assert (He : early_success df = percentage early half) by done.
  assert (Hl : late_success df = percentage late half) by done.
  assert (Hi : trend df = Some "improving" <->
               (early_success df < late_success df)%Q).
  { unfold trend. rewrite (proj2 (Nat.leb_le _ _) Hlen).
    rewrite <- Qltb_lt.
    destruct (Qltb (early_success df) (late_success df)); [done|].
    destruct (Qltb (late_success df) (early_success df)); split; done. }
  assert (Hd : trend df = Some "declining" <->
               (late_success df < early_success df)%Q).
  { unfold trend. rewrite (proj2 (Nat.leb_le _ _) Hlen).
    destruct (Qltb (early_success df) (late_success df)) eqn:H1.
    - apply Qltb_lt in H1. split; [done|]. intros H2.
      exfalso. eapply Qlt_irrefl, Qlt_trans; eauto.
    - rewrite <- Qltb_lt.
      destruct (Qltb (late_success df) (early_success df)); split; done. }
  assert (Hs : trend df = Some "stable" <->
               (early_success df == late_success df)%Q).
  { unfold trend. rewrite (proj2 (Nat.leb_le _ _) Hlen).
    destruct (Qltb (early_success df) (late_success df)) eqn:H1.
    - apply Qltb_lt in H1. split; [done|]. intros H2.
      rewrite H2 in H1. by apply Qlt_irrefl in H1.
    - destruct (Qltb (late_success df) (early_success df)) eqn:H2.
      + apply Qltb_lt in H2. split; [done|]. intros H3.
        rewrite H3 in H2. by apply Qlt_irrefl in H2.
      + apply Qltb_ge in H1, H2. split; [intros _|done].
        by apply Qle_antisym. }
  split; [done|]. split; [done|].
  split; [exact Hi|]. split; [exact Hd|]. split; [exact Hs|].
  rewrite Hi, Hd, Hs, He, Hl.
  rewrite !percentage_lt, percentage_eq by done. done.
Qed.

(** C8 as the claim words it, for every list, fails: of these four
    interviews the first half has no Selected and the second half has only
    Selected, yet no label is produced. *)
Lemma trend_not_for_every_list :
  (early_success Samples.four < late_success Samples.four)%Q
  /\ trend Samples.four <> Some "improving".
Proof. split; [by vm_compute|]. by vm_compute. Qed.

Lemma trend_label_witness :
  let half := 2%nat in
  let early := length (with_status "Selected" (take half Samples.five)) in
  let late := length (with_status "Selected"
                        (drop (length Samples.five - half) Samples.five)) in
  early_success Samples.five = (Qnat early / Qnat half * 100)%Q
  /\ late_success Samples.five = (Qnat late / Qnat half * 100)%Q
  /\ (trend Samples.five = Some "improving" <->
      (early_success Samples.five < late_success Samples.five)%Q)
  /\ (trend Samples.five = Some "declining" <->
      (late_success Samples.five < early_success Samples.five)%Q)
  /\ (trend Samples.five = Some "stable" <->
      (early_success Samples.five == late_success Samples.five)%Q)
  /\ (trend Samples.five = Some "improving" <-> (early < late)%nat)
  /\ (trend Samples.five = Some "declining" <-> (late < early)%nat)
  /\ (trend Samples.five = Some "stable" <-> early = late).
Proof.
  apply (trend_label Samples.five). simpl. lia.
Defined.

Example trend_five : trend Samples.five = Some "improving".
Proof. by vm_compute. Qed.

(** [min(95, x)] is at most 95, whatever [x], NaN included. *)
Lemma pymin_95 (x : pyfloat) :
  exists q, pymin (Num 95) x = Num q /\ (q <= 95)%Q.
Proof.
  unfold pymin. destruct x as [|y]; simpl.
  - exists 95%Q. split; [done|apply Qle_refl].
  - destruct (Qltb y 95) eqn:Hlt.
    + exists y. split; [done|]. by apply Qlt_le_weak, Qltb_lt.
    + exists 95%Q. split; [done|apply Qle_refl].
Qed.

Lemma tail_rows_nonempty (n : nat) (df : list Interview) :
  (0 < n)%nat -> df <> [] -> tail_rows n df <> [].
Proof.
  intros Hn Hdf Hnil. unfold tail_rows in Hnil.
  apply (f_equal length) in Hnil. rewrite length_drop in Hnil. simpl in Hnil.
  destruct df; [done|]. simpl in Hnil. lia.
Qed.

(** C10. The predicted probability is
    [min(95, avg_recent_prep * 15 + recent_success_rate * 0.5)], both
    inputs taken over the last five rows of the list (all rows when there
    are fewer), and it is a number that is at most 95 for every list: on an
    empty list the mean is NaN and [min] returns its first argument. *)
Theorem success_prob_at_most_95 (df : list Interview) :
  let recent := drop (length df - 5) df in
  ((take (length df - 5) df ++ recent)%list = df
   /\ length recent = Nat.min 5 (length df))
  /\ avg_recent_prep df = mean_prep recent
  /\ recent_success_rate df =
     (if (0 <? length recent)%nat
      then (Qnat (length (with_status "Selected" recent))
            / Qnat (length recent) * 100)%Q
      else 0%Q)
  /\ success_prob df =
     pymin (Num 95) (fadd (fmul (avg_recent_prep df) 15)
                          (Num (recent_success_rate df * (1 # 2))%Q))
  /\ (exists q, success_prob df = Num q /\ (q <= 95)%Q)
  /\ (df <> [] ->
      exists q, success_prob df = Num q
        /\ (q == Qmin 95 (inject_Z (sum_prep recent) / Qnat (length recent) * 15
                          + recent_success_rate df * (1 # 2)))%Q).
Proof.
  intros recent.
  split; [split; [apply take_drop|unfold recent; rewrite length_drop; lia]|].
  split; [done|]. split; [done|]. split; [done|].
  split; [apply pymin_95|].
  intros Hdf. unfold success_prob, avg_recent_prep, mean_prep.
  fold recent. pose proof (tail_rows_nonempty 5 df ltac:(lia) Hdf) as Hne.
  fold recent in Hne. unfold tail_rows in Hne. fold recent in Hne.
  unfold tail_rows. fold recent.
  destruct recent as [|r rest] eqn:Hrec; [done|].
  set (x := (inject_Z (sum_prep (r :: rest)) / Qnat (length (r :: rest)) * 15
             + recent_success_rate df * (1 # 2))%Q).
  change (exists q, pymin (Num 95) (Num x) = Num q /\ (q == Qmin 95 x)%Q).
  unfold pymin. simpl. destruct (Qltb x 95) eqn:Hlt.
  - exists x. split; [done|]. symmetry. apply Q.min_r.
    by apply Qlt_le_weak, Qltb_lt.
  - exists 95%Q. split; [done|]. symmetry. apply Q.min_l. by apply Qltb_ge.
Qed.

Example success_prob_five :
  exists q, success_prob Samples.five = Num q /\ (q == 87)%Q.
Proof. eexists. split; [vm_compute; reflexivity|]. by vm_compute. Qed.

(** * Further properties of the store *)

Import DatabaseOps.

Lemma filter_id_absent (rows : list Interview) (iid : Z) :
  (forall r, r ∈ rows -> interview_id r <> iid) ->
  filter (fun r => interview_id r = iid) rows = []
  /\ filter (fun r => interview_id r <> iid) rows = rows.
Proof.
  induction rows as [|r rows IH]; intros Habs; [done|].
  rewrite !filter_cons.
  assert (Hr : interview_id r <> iid) by (apply Habs; left).
  rewrite decide_False, decide_True by done.
  destruct IH as [-> ->]; [|done].
  intros x Hx. apply Habs. by right.
Qed.

Section AddInterview.

Variables (rowid stamp uid : Z) (company role' date status' : string)
          (prep : Z) (notes' topics : string).

Local Abbreviation add db :=
  (add_interview db rowid stamp uid company role' date status' prep notes'
                 topics).
Local Abbreviation new_row :=
  (mkInterview rowid uid company role' date status' prep notes' topics stamp).

(** X1. After [add_interview], [get_interview_by_id] of the returned id
    gives back the row just written, field by field, and the lookup of
    every other id is what it was. *)
Theorem add_interview_then_get (db : Store) :
  (forall r, r ∈ interviews db -> interview_id r <> rowid) ->
  get_interview_by_id (add db).2 (add db).1 = Some new_row
  /\ (forall other, other <> rowid ->
        get_interview_by_id (add db).2 other = get_interview_by_id db other).
Proof.
  intros Hfresh. unfold get_interview_by_id. simpl. split.
  - rewrite filter_app, (proj1 (filter_id_absent _ _ Hfresh)).
    rewrite filter_cons. simpl. rewrite decide_True by done. done.
  - intros other Hne. rewrite filter_app, filter_cons. simpl.
    rewrite decide_False by congruence.
    by rewrite filter_nil, app_nil_r.
Qed.

(** X2. [add_interview] puts exactly one more row, the new one, into the
    list of the user it is added for, and leaves the list of every other
    user as it was. *)
Theorem add_interview_user_lists (db : Store) :
  get_user_interviews (add db).2 uid ≡ₚ new_row :: get_user_interviews db uid
  /\ (forall other, other <> uid ->
        get_user_interviews (add db).2 other = get_user_interviews db other).
Proof.
  split.
  - rewrite !get_user_interviews_perm. simpl.
    rewrite filter_app, filter_cons. simpl. rewrite decide_True by done.
    rewrite filter_nil. by rewrite <- Permutation_cons_append.
  - intros other Hne. unfold get_user_interviews. simpl.
    rewrite filter_app, filter_cons. simpl.
    rewrite decide_False by congruence.
    by rewrite filter_nil, app_nil_r.
Qed.

(** X3. Deleting the id that [add_interview] returned undoes the add: the
    delete returns [True] and the store is the one before the add.  The
    returned id is a key of the table, an integer of 64 bits. *)
Theorem add_interview_then_delete (db : Store) :
  fits_int64 rowid = true ->
  (forall r, r ∈ interviews db -> interview_id r <> rowid) ->
  delete_interview (add db).2 (add db).1 = (true, db).
Proof.
  intros Hfits Hfresh. cbn [fst add_interview].
  rewrite delete_interview_runs by done. f_equal.
  destruct db as [us rows]. simpl in *.
  unfold with_interviews. simpl. f_equal.
  rewrite filter_app, (proj2 (filter_id_absent _ _ Hfresh)).
  rewrite filter_cons. simpl. rewrite decide_False by auto.
  by rewrite filter_nil, app_nil_r.
Qed.

(** X4. [add_interview] raises the user's count for the status of the new
    row by one, whether or not the status is one of the four, and changes
    no other count of that user nor any count of another user. *)
Theorem add_interview_status_counts (db : Store) (k : string) :
  get_status_counts (add db).2 uid !! k =
    (if decide (k = status')
     then Some (S (default 0%nat (get_status_counts db uid !! k)))
     else get_status_counts db uid !! k)
  /\ (forall other, other <> uid ->
        get_status_counts (add db).2 other = get_status_counts db other).
Proof.
  split.
  - rewrite !get_status_counts_lookup. cbv zeta.
    rewrite !with_status_get_user_interviews.
    set (mine := filter (fun r => user_id r = uid) (interviews db)).
    assert (Hrows : filter (fun r => user_id r = uid) (interviews (add db).2)
                    = (mine ++ [new_row])%list).
    { simpl. rewrite filter_app, filter_cons. simpl.
      by rewrite (decide_True (P := uid = uid)) by done. }
    rewrite Hrows. unfold with_status.
    rewrite filter_app, length_app, filter_cons. simpl.
    set (n := length (filter (fun r => status r = k) mine)).
    destruct (decide (k = status')) as [->|Hne].
    + rewrite (decide_True (P := status' = status')) by done. simpl.
      rewrite (decide_True (P := _ \/ (0 < n + 1)%nat)) by (right; lia).
      case_decide; simpl; f_equal; lia.
    + rewrite (decide_False (P := status' = k)) by congruence. simpl.
      by rewrite Nat.add_0_r.
  - intros other Hne. unfold get_status_counts. simpl.
    rewrite filter_app, filter_cons. simpl.
    rewrite decide_False by congruence.
    by rewrite filter_nil, app_nil_r.
Qed.

End AddInterview.

Section UpdateMore.

Variables (company role' date status' : string) (prep : Z)
          (notes' topics : string) (now : Z).

Local Abbreviation update db iid :=
  (update_interview db iid company role' date status' prep notes' topics now).
Local Abbreviation fields r :=
  (set_fields r company role' date status' prep notes' topics now).

Lemma get_after_update (rows : list Interview) (iid : Z) :
  head (filter (fun r => interview_id r = iid)
          ((fun r => if decide (interview_id r = iid) then fields r else r)
             <$> rows))
  = (fun r => mkInterview iid (user_id r) company role' date status' prep
                          notes' topics now)
      <$> head (filter (fun r => interview_id r = iid) rows).
Proof.
  induction rows as [|r rows IH]; [done|].
  rewrite fmap_cons, !filter_cons.
  destruct (decide (interview_id r = iid)) as [Heq|Hne].
  - simpl. rewrite decide_True by done. simpl.
    unfold set_fields. by rewrite Heq.
  - by rewrite decide_False.
Qed.

Lemma get_other_after_update (rows : list Interview) (iid other : Z) :
  other <> iid ->
  head (filter (fun r => interview_id r = other)
          ((fun r => if decide (interview_id r = iid) then fields r else r)
             <$> rows))
  = head (filter (fun r => interview_id r = other) rows).
Proof.
  intros Hne. induction rows as [|r rows IH]; [done|].
  rewrite fmap_cons, !filter_cons.
  destruct (decide (interview_id r = iid)) as [Heq|Hne'].
  - simpl. rewrite !decide_False by congruence. done.
  - destruct (decide (interview_id r = other)); simpl; [done|apply IH].
Qed.

(** X5. After an [update_interview] that runs (the id and the level fit in
    64 bits), [get_interview_by_id] of the updated id returns the row it
    returned before with the new company, role, date, status, level, notes,
    topics and time, and with its id and owner ([None] if it returned
    [None]).  An update that cannot bind its level or id returns [False] and
    leaves the store, so the lookup, as it was.  The lookup of every other
    id is unchanged either way. *)
Theorem update_interview_then_get (db : Store) (iid : Z) :
  (fits_int64 prep && fits_int64 iid = true ->
   (update db iid).1 = true
   /\ get_interview_by_id (update db iid).2 iid =
      (fun r => mkInterview iid (user_id r) company role' date status' prep
                            notes' topics now)
        <$> get_interview_by_id db iid)
  /\ (fits_int64 prep && fits_int64 iid = false ->
      update db iid = (false, db))
  /\ (forall other, other <> iid ->
        get_interview_by_id (update db iid).2 other =
        get_interview_by_id db other).
Proof.
  split; [|split].
  - intros Hrun. rewrite update_interview_runs by done.
    split; [done|]. apply get_after_update.
  - apply update_interview_fails.
  - intros other Hne. unfold update_interview. case_match; [|done].
    by apply get_other_after_update.
Qed.

(** X7. [update_interview] changes neither the key nor the owner of any
    row, so the table keeps its length and every user keeps the same
    number of interviews. *)
Theorem update_interview_keeps_keys (db : Store) (iid : Z) :
  (fun r => (interview_id r, user_id r)) <$> interviews (update db iid).2
    = (fun r => (interview_id r, user_id r)) <$> interviews db
  /\ (forall who,
        length (get_user_interviews (update db iid).2 who) =
        length (get_user_interviews db who)).
Proof.
  unfold update_interview. case_match; [|done]. split.
  - simpl. induction (interviews db) as [|r rows IH]; [done|].
    simpl. f_equal; [by case_decide|apply IH].
  - intros who. rewrite !get_user_interviews_perm. simpl.
    induction (interviews db) as [|r rows IH]; [done|].
    simpl. rewrite !filter_cons.
    assert (Hu : user_id (if decide (interview_id r = iid)
                          then fields r else r) = user_id r)
      by by case_decide.
    rewrite Hu.
    destruct (decide (user_id r = who)); simpl; [f_equal|]; apply IH.
Qed.

End UpdateMore.

(** X6. The last writer wins: when the second of two updates of the same
    id runs, the store is the one that the second update alone leaves,
    whether the first one ran or failed, and a stored row with that id
    holds the second update's values.  When the second update cannot bind
    its level or id, it returns [False] and what the first one left
    stays. *)
Theorem update_interview_last_wins (db : Store) (iid : Z)
    (c1 r1 d1 s1 : string) (p1 : Z) (n1 t1 : string) (now1 : Z)
    (c2 r2 d2 s2 : string) (p2 : Z) (n2 t2 : string) (now2 : Z) :
  let first := update_interview db iid c1 r1 d1 s1 p1 n1 t1 now1 in
  let second := update_interview first.2 iid c2 r2 d2 s2 p2 n2 t2 now2 in
  (fits_int64 p2 && fits_int64 iid = true ->
   second = update_interview db iid c2 r2 d2 s2 p2 n2 t2 now2
   /\ (forall i r, interviews db !! i = Some r -> interview_id r = iid ->
         interviews second.2 !! i
         = Some (mkInterview iid (user_id r) c2 r2 d2 s2 p2 n2 t2 now2)))
  /\ (fits_int64 p2 && fits_int64 iid = false -> second = (false, first.2)).
Proof.
  intros first second. split.
  - intros Hrun.
    assert (Heq : second = update_interview db iid c2 r2 d2 s2 p2 n2 t2 now2).
    { unfold second, first. rewrite !(update_interview_runs c2) by done.
      f_equal. unfold update_interview.
      destruct (fits_int64 p1 && fits_int64 iid); [|done].
      destruct db as [us rows]. unfold with_interviews. simpl. f_equal.
      rewrite <- list_fmap_compose. apply list_fmap_ext.
      intros _ r _. simpl.
      destruct (decide (interview_id r = iid)) as [Heq|Hne].
      - simpl. by rewrite decide_True.
      - by rewrite decide_False. }
    split; [exact Heq|]. intros i r Hi Hid. rewrite Heq.
    rewrite update_interview_lookup, Hi by done. simpl.
    rewrite decide_True by done. unfold set_fields. by rewrite Hid.
  - intros Hfail. by apply update_interview_fails.
Qed.

(** X9. [delete_interview] for an id that no row carries leaves the store
    as it was; it returns [True] when the id fits in 64 bits and [False],
    from the [except] branch, when it does not.  So deleting the same id a
    second time changes nothing and reports what the first delete
    reported. *)
Theorem delete_interview_missing_id (db : Store) (iid : Z) :
  ((forall r, r ∈ interviews db -> interview_id r <> iid) ->
   delete_interview db iid = (fits_int64 iid, db))
  /\ delete_interview (delete_interview db iid).2 iid
     = (fits_int64 iid, (delete_interview db iid).2).
Proof.
  assert (H : forall d, (forall r, r ∈ interviews d -> interview_id r <> iid) ->
                        delete_interview d iid = (fits_int64 iid, d)).
  { intros [us rows] Habs. unfold delete_interview, with_interviews.
    case_match; [|done].
    simpl in *. by rewrite (proj2 (filter_id_absent _ _ Habs)). }
  split; [apply H|].
  destruct (fits_int64 iid) eqn:Hfits.
  - apply H. intros r Hr. apply elem_of_delete_interview in Hr.
    + tauto.
    + by rewrite delete_interview_flag.
  - by rewrite !delete_interview_fails.
Qed.

(** X8. [delete_interview] takes out the rows with the given id and nothing
    else: the rows with another id are the same rows in the same order,
    the [users] table is untouched, every user's list holds the same rows
    with another id as before, and the lookup of every other id is
    unchanged.  Provided the id, if a stored row carries it, is one that
    SQLite can hold, the table afterwards is the table before without the
    rows of that id. *)
Theorem delete_interview_spares_others (db : Store) (iid : Z) :
  ((forall r, r ∈ interviews db -> interview_id r = iid ->
              fits_int64 iid = true) ->
   interviews (delete_interview db iid).2
   = filter (fun r => interview_id r <> iid) (interviews db))
  /\ filter (fun r => interview_id r <> iid)
            (interviews (delete_interview db iid).2)
     = filter (fun r => interview_id r <> iid) (interviews db)
  /\ users (delete_interview db iid).2 = users db
  /\ (forall uid r, interview_id r <> iid ->
        (r ∈ get_user_interviews (delete_interview db iid).2 uid <->
         r ∈ get_user_interviews db uid))
  /\ (forall other, other <> iid ->
        get_interview_by_id (delete_interview db iid).2 other =
        get_interview_by_id db other).
Proof.
  split; [|split; [|split]].
  - intros Hwf. unfold delete_interview.
    destruct (fits_int64 iid) eqn:Hfits; [done|]. simpl.
    assert (Habs : forall r, r ∈ interviews db -> interview_id r <> iid).
    { intros r Hr Hid. specialize (Hwf r Hr Hid). congruence. }
    by rewrite (proj2 (filter_id_absent _ _ Habs)).
  - unfold delete_interview. case_match; [|done]. simpl.
    induction (interviews db) as [|r rows IH]; [done|].
    rewrite !filter_cons. case_decide; [|done].
    rewrite filter_cons, decide_True by done. by rewrite IH.
  - apply delete_interview_users.
  - apply delete_interview_keeps_others.
Qed.

(** * Further properties of accounts and sessions *)

Lemma violates_unique_true (us : list User) (uname mail : string) :
  violates_unique us uname mail = true <->
  exists u, u ∈ us /\ (username u = uname \/ email u = mail).
Proof.
  unfold violates_unique. rewrite existsb_exists. split.
  - intros (u & Hin & Hu). exists u. split; [by apply list_elem_of_In|].
    apply orb_true_iff in Hu as [H|H]; apply bool_decide_eq_true in H; auto.
  - intros (u & Hin & Hu). exists u. split; [by apply list_elem_of_In|].
    apply orb_true_iff. destruct Hu as [H|H]; [left|right];
      by apply bool_decide_eq_true.
Qed.

Lemma create_user_result (db : Store) (uname mail h : string) :
  create_user db uname mail h =
  if violates_unique (users db) uname mail then (false, db)
  else (true, with_users db
                (users db ++ [mkUser (next_user_id (users db)) uname mail h])).
Proof. done. Qed.

(** [create_user] returns [False] exactly when some row already has
    the username or the email, and a store whose usernames are pairwise
    distinct and whose emails are pairwise distinct stays so. *)
Lemma create_user_keeps_unique (db : Store) (uname mail h : string) :
  ((create_user db uname mail h).1 = false <->
   exists u, u ∈ users db /\ (username u = uname \/ email u = mail))
  /\ (NoDup (username <$> users db) -> NoDup (email <$> users db) ->
      NoDup (username <$> users (create_user db uname mail h).2)
      /\ NoDup (email <$> users (create_user db uname mail h).2)).
Proof.
  rewrite create_user_result, <- violates_unique_true.
  destruct (violates_unique (users db) uname mail) eqn:Hv; simpl.
  - split; [done|]. auto.
  - split; [split; done|]. intros Hn He.
    pose proof (proj1 (violates_unique_false _ _ _) Hv) as Hfresh.
    rewrite !fmap_app. simpl. split; apply NoDup_app.
    + split; [done|]. split; [|apply NoDup_singleton].
      intros x (u & -> & Hu)%list_elem_of_fmap Hx%list_elem_of_singleton.
      destruct (Hfresh u Hu). simpl in Hx. done.
    + split; [done|]. split; [|apply NoDup_singleton].
      intros x (u & -> & Hu)%list_elem_of_fmap Hx%list_elem_of_singleton.
      destruct (Hfresh u Hu). simpl in Hx. done.
Qed.

Lemma filter_username_fresh (us : list User) (uname : string) :
  (forall u, u ∈ us -> username u <> uname) ->
  filter (fun u => username u = uname) us = [].
Proof.
  induction us as [|u us IH]; intros Hfresh; [done|].
  rewrite filter_cons, decide_False by (apply Hfresh; left).
  apply IH. intros x Hx. apply Hfresh. by right.
Qed.

Lemma get_user_after_create (db : Store) (uname mail h : string) :
  violates_unique (users db) uname mail = false ->
  get_user_by_username
    (with_users db
       (users db ++ [mkUser (next_user_id (users db)) uname mail h]))
    uname
  = Some (mkUser (next_user_id (users db)) uname mail h).
Proof.
  intros Hv. pose proof (proj1 (violates_unique_false _ _ _) Hv) as Hfresh.
  unfold get_user_by_username. simpl. rewrite filter_app.
  rewrite filter_username_fresh by (intros u Hu; by apply Hfresh).
  rewrite filter_cons. simpl. by rewrite decide_True.
Qed.

(** X11. After a [create_user] that returned [True],
    [get_user_by_username] finds the new account: the row with that
    username, that email and that password hash. *)
Theorem create_user_then_get (db : Store) (uname mail h : string) :
  (create_user db uname mail h).1 = true ->
  exists id, get_user_by_username (create_user db uname mail h).2 uname
             = Some (mkUser id uname mail h).
Proof.
  rewrite create_user_result.
  destruct (violates_unique (users db) uname mail) eqn:Hv; [done|].
  intros _. eexists. simpl. by apply get_user_after_create.
Qed.

Section Accounts.

Variable hashpw : string -> string -> string.
Variable checkpw : string -> string -> bool.

Lemma signup_true_iff (db : Store) (salt uname mail password : string) :
  (signup hashpw db salt uname mail password).1.1 = true <->
  (3 <= String.length uname)%nat /\ (6 <= String.length password)%nat
  /\ has_at mail = true
  /\ violates_unique (users db) uname mail = false.
Proof.
  destruct (decide ((3 <= String.length uname)%nat
                    /\ (6 <= String.length password)%nat
                    /\ has_at mail = true)) as [(Hu & Hp & Hm)|Hbad].
  - rewrite signup_valid by done. rewrite create_user_result.
    destruct (violates_unique (users db) uname mail); simpl.
    + split; [done|]. by intros (_ & _ & _ & ?).
    + split; [|done]. auto.
  - assert (Hf : (signup hashpw db salt uname mail password).1.1 = false).
    { unfold signup. repeat case_match; simpl; try done.
      exfalso. apply Hbad.
      repeat match goal with
             | H : (_ <? _)%nat = false |- _ => apply Nat.ltb_ge in H
             | H : negb _ = false |- _ => apply negb_false_iff in H
             end. done. }
    rewrite Hf. split; [done|].
    intros (? & ? & ? & _). exfalso. by apply Hbad.
Qed.

Lemma signup_true_store (db : Store) (salt uname mail password : string) :
  (signup hashpw db salt uname mail password).1.1 = true ->
  (signup hashpw db salt uname mail password).2 =
  with_users db
    (users db ++ [mkUser (next_user_id (users db)) uname mail
                         (hashpw password salt)]).
Proof.
  intros Hok. pose proof Hok as (Hu & Hp & Hm & Hv)%signup_true_iff.
  rewrite signup_valid by done. rewrite create_user_result. by rewrite Hv.
Qed.

(** X16. [signup] succeeds exactly when the username has at least 3
    characters, the password at least 6, the email holds an [@], and
    neither the username nor the email is taken; it then appends one row
    that carries the hash of the password. *)
Theorem signup_succeeds_iff (db : Store) (salt uname mail password : string) :
  ((signup hashpw db salt uname mail password).1.1 = true <->
   (3 <= String.length uname)%nat /\ (6 <= String.length password)%nat
   /\ has_at mail = true
   /\ (forall u, u ∈ users db -> username u <> uname /\ email u <> mail))
  /\ ((signup hashpw db salt uname mail password).1.1 = true ->
      (signup hashpw db salt uname mail password).2 =
      with_users db
        (users db ++ [mkUser (next_user_id (users db)) uname mail
                             (hashpw password salt)])).
Proof.
  rewrite <- violates_unique_false.
  split; [apply signup_true_iff|apply signup_true_store].
Qed.

(** X17. A [login] that fails leaves the database as it was and hands out
    no user data; when both fields are filled in, its message is the same
    for an unknown username and for a wrong password. *)
Theorem login_failure (adb : AuthDb) (now : Z) (uname password : string) :
  (Login.login checkpw adb now uname password).1.1.1 = false ->
  (Login.login checkpw adb now uname password).2 = adb
  /\ (Login.login checkpw adb now uname password).1.2 = None
  /\ (is_empty uname = false -> is_empty password = false ->
      (Login.login checkpw adb now uname password).1.1.2
      = "Invalid username or password").
Proof.
  unfold Login.login. repeat case_match; simpl; try done.
  all: intros _; repeat split; try done.
  all: intros Hu Hp; rewrite Hu, Hp in *; done.
Qed.

(** X18. A [login] that succeeds returns the row that
    [get_user_by_username] finds for the username, whose hash the password
    checks against; it stamps [last_login] of that user with the current
    time and touches neither the [last_login] of another user nor the
    tables. *)
Theorem login_success (adb : AuthDb) (now : Z) (uname password : string) :
  (Login.login checkpw adb now uname password).1.1.1 = true ->
  exists user,
    get_user_by_username (auth_store adb) uname = Some user
    /\ checkpw password (password_hash user) = true
    /\ (Login.login checkpw adb now uname password).1
       = (true, "Login successful!", Some user)
    /\ auth_store (Login.login checkpw adb now uname password).2
       = auth_store adb
    /\ last_login (Login.login checkpw adb now uname password).2
       = <[u_user_id user := now]> (last_login adb).
Proof.
  unfold Login.login.
  destruct (is_empty uname || is_empty password); [done|].
  destruct (get_user_by_username (auth_store adb) uname) as [user|] eqn:Hget;
    [|done].
  destruct (checkpw password (password_hash user)) eqn:Hck; [|done].
  intros _. exists user. simpl. repeat split; try done.
  - unfold update_last_login. by case_match.
  - unfold update_last_login.
    assert (Hin : user ∈ users (auth_store adb)).
    { unfold get_user_by_username in Hget.
      apply head_Some_elem_of in Hget.
      by apply list_elem_of_filter in Hget as [_ ?]. }
    assert (Hex : existsb (fun u => bool_decide (u_user_id u = u_user_id user))
                          (users (auth_store adb)) = true).
    { apply existsb_exists. exists user.
      split; [by apply list_elem_of_In|]. by apply bool_decide_eq_true. }
    by rewrite Hex.
Qed.

(** X19. Signing up and then logging in with the same username and
    password succeeds and returns the account that was created, provided
    bcrypt accepts the password against the hash it made of it; a password
    that bcrypt rejects against that hash is turned away. *)
Theorem signup_then_login (db : Store) (salt uname mail password : string)
    (logins : gmap Z Z) (now : Z) (other_password : string) :
  (signup hashpw db salt uname mail password).1.1 = true ->
  checkpw password (hashpw password salt) = true ->
  let adb := mkAuthDb (signup hashpw db salt uname mail password).2 logins in
  let user := mkUser (next_user_id (users db)) uname mail
                     (hashpw password salt) in
  (Login.login checkpw adb now uname password).1
    = (true, "Login successful!", Some user)
  /\ (checkpw other_password (hashpw password salt) = false ->
      (Login.login checkpw adb now uname other_password).1.1.1 = false).
Proof.
  intros Hok Hck adb user.
  pose proof (signup_true_store db salt uname mail password Hok) as Hdb.
  apply signup_true_iff in Hok as (Hu & Hp & Hm & Hfresh).
  assert (Hget : get_user_by_username (auth_store adb) uname = Some user).
  { unfold adb. simpl. rewrite Hdb. by apply get_user_after_create. }
  unfold Login.login. rewrite Hget.
  rewrite (is_empty_length uname), (is_empty_length password) by lia.
  simpl. rewrite Hck. split; [done|].
  intros Hbad. destruct (is_empty other_password); [done|]. simpl.
  by rewrite Hbad.
Qed.

End Accounts.

Lemma foldl_delete_all (l : list string) :
  forall m : gmap string Login.pyval,
    (forall k, is_Some (m !! k) -> k ∈ l) ->
    foldl (fun st key => delete key st) m l = ∅.
Proof.
  induction l as [|k l IH]; intros m Hkeys.
  - simpl. apply map_empty. intros i.
    destruct (m !! i) eqn:Hi; [|done].
    exfalso. eapply not_elem_of_nil. apply Hkeys. eauto.
  - simpl. apply IH. intros k' Hk'.
    destruct (decide (k = k')) as [->|Hne].
    + rewrite lookup_delete_eq in Hk'. by destruct Hk'.
    + rewrite lookup_delete_ne in Hk' by done.
      apply Hkeys in Hk'. apply elem_of_cons in Hk' as [?|?]; congruence.
Qed.

(** X20. Whatever the session holds, the three assignments of the login
    form make [is_logged_in] true and the current user and name those of
    the account, and [logout] empties the session, after which nobody is
    logged in and the name shown is Guest. *)
Theorem session_login_logout (session : gmap string Login.pyval)
    (user : User) :
  (Login.is_logged_in (Login.set_session_user session user) = true
   /\ Login.get_current_user_id (Login.set_session_user session user)
      = Login.VInt (u_user_id user)
   /\ Login.get_current_username (Login.set_session_user session user)
      = Login.VStr (username user))
  /\ (Login.logout session = ∅
      /\ Login.is_logged_in (Login.logout session) = false
      /\ Login.get_current_user_id (Login.logout session) = Login.VNone
      /\ Login.get_current_username (Login.logout session)
         = Login.VStr "Guest").
Proof.
  split.
  - unfold Login.is_logged_in, Login.get_current_user_id,
      Login.get_current_username, Login.set_session_user.
    by simplify_map_eq.
  - assert (He : Login.logout session = ∅).
    { unfold Login.logout. apply foldl_delete_all.
      intros k [v Hv]. apply list_elem_of_fmap. exists (k, v).
      split; [done|]. by apply elem_of_map_to_list. }
    rewrite He. done.
Qed.

(** * Further properties of the aggregates *)

(** X12. [get_status_counts] holds, under each of the four statuses and
    under every other status that one of the user's interviews has, the
    number of the user's interviews with that status, and it has no other
    key. *)
Theorem status_counts_by_key (db : Store) (uid : Z) (k : string) (n : nat) :
  get_status_counts db uid !! k = Some n <->
  n = length (with_status k (get_user_interviews db uid))
  /\ (k ∈ ["Applied"; "Interviewed"; "Selected"; "Rejected"]
      \/ exists r, r ∈ get_user_interviews db uid /\ status r = k).
Proof.
  rewrite get_status_counts_lookup. cbv zeta.
  set (rows := get_user_interviews db uid).
  assert (Hpos : (0 < length (with_status k rows))%nat <->
                 exists r, r ∈ rows /\ status r = k).
  { unfold with_status. split.
    - intros Hlen. destruct (filter _ rows) as [|r l] eqn:Hf;
        [simpl in Hlen; lia|].
      exists r.
      assert (Hr : r ∈ filter (fun r => status r = k) rows)
        by (rewrite Hf; left).
      apply list_elem_of_filter in Hr. tauto.
    - intros (r & Hin & Hr).
      assert (Hrf : r ∈ filter (fun r => status r = k) rows)
        by by apply list_elem_of_filter.
      destruct (filter _ rows); [by apply elem_of_nil in Hrf|simpl; lia]. }
  fold status_keys. rewrite <- Hpos.
  case_decide; split.
  - by intros [= <-].
  - by intros [-> _].
  - done.
  - by intros [_ ?].
Qed.

Lemma foldr_min_spec (x : Z) (rest : list Z) :
  foldr Z.min x rest ∈ x :: rest
  /\ (forall y, y ∈ x :: rest -> foldr Z.min x rest <= y).
Proof.
  induction rest as [|z rest [IHin IHle]]; simpl.
  - split; [left|]. intros y ->%list_elem_of_singleton. lia.
  - split.
    + destruct (Z.min_spec z (foldr Z.min x rest)) as [[_ ->]|[_ ->]].
      * right. left.
      * apply elem_of_cons in IHin as [->|Hin]; [left|]. do 2 right. done.
    + intros y Hy.
      assert (Hy' : y = z \/ y ∈ x :: rest).
      { apply elem_of_cons in Hy as [->|Hy]; [right; left|].
        apply elem_of_cons in Hy as [->|Hy]; [by left|]. right. by right. }
      destruct Hy' as [->|Hy']; [lia|]. specialize (IHle y Hy'). lia.
Qed.

Lemma foldr_max_spec (x : Z) (rest : list Z) :
  foldr Z.max x rest ∈ x :: rest
  /\ (forall y, y ∈ x :: rest -> y <= foldr Z.max x rest).
Proof.
  induction rest as [|z rest [IHin IHle]]; simpl.
  - split; [left|]. intros y ->%list_elem_of_singleton. lia.
  - split.
    + destruct (Z.max_spec z (foldr Z.max x rest)) as [[_ ->]|[_ ->]].
      * apply elem_of_cons in IHin as [->|Hin]; [left|]. do 2 right. done.
      * right. left.
    + intros y Hy.
      assert (Hy' : y = z \/ y ∈ x :: rest).
      { apply elem_of_cons in Hy as [->|Hy]; [right; left|].
        apply elem_of_cons in Hy as [->|Hy]; [by left|]. right. by right. }
      destruct Hy' as [->|Hy']; [lia|]. specialize (IHle y Hy'). lia.
Qed.

(** X13. [get_preparation_stats] counts the user's interviews.  For a user
    without interviews the three aggregates are NULL.  Otherwise none of
    them is NULL, the average is what SQLite's [AVG] gives for the user's
    levels, the minimum and the maximum are levels of interviews of the
    user, and every level of the user lies between them. *)
Theorem preparation_stats_bounds (sql_avg : list Z -> Q) (db : Store)
    (uid : Z) :
  let stats := get_preparation_stats sql_avg db uid in
  let mine := get_user_interviews db uid in
  total_interviews stats = length mine
  /\ (mine = [] ->
      avg_prep stats = None /\ min_prep stats = None /\ max_prep stats = None)
  /\ (mine <> [] ->
      exists lo hi,
        avg_prep stats
        = Some (sql_avg (preparation_level
                           <$> filter (fun r => user_id r = uid)
                                      (interviews db)))
        /\ min_prep stats = Some lo
        /\ max_prep stats = Some hi
        /\ (exists r, r ∈ mine /\ preparation_level r = lo)
        /\ (exists r, r ∈ mine /\ preparation_level r = hi)
        /\ (forall r, r ∈ mine -> lo <= preparation_level r <= hi)).
Proof.
  intros stats mine.
  set (rows := filter (fun r => user_id r = uid) (interviews db)).
  assert (Hperm : mine ≡ₚ rows) by apply get_user_interviews_perm.
  assert (Hmem : forall x, x ∈ preparation_level <$> rows <->
                           exists r, r ∈ mine /\ preparation_level r = x).
  { intros x. rewrite list_elem_of_fmap. split.
    - intros (r & -> & Hr). exists r. by rewrite Hperm.
    - intros (r & Hr & <-). exists r. by rewrite <- Hperm. }
  unfold stats, get_preparation_stats. fold rows.
  destruct (preparation_level <$> rows) as [|x rest] eqn:Hl.
  - apply fmap_nil_inv in Hl. rewrite Hl in Hperm.
    apply Permutation_nil_r in Hperm. rewrite Hperm. simpl.
    split; [done|]. split; [done|]. done.
  - assert (Hlen : length (x :: rest) = length mine).
    { rewrite <- Hl, length_fmap. by rewrite Hperm. }
    split; [exact Hlen|]. split.
    + intros Hnil. rewrite Hnil in Hlen. done.
    + intros _.
      destruct (foldr_min_spec x rest) as [Hmin_in Hmin_le].
      destruct (foldr_max_spec x rest) as [Hmax_in Hmax_le].
      eexists _, _. split; [done|]. split; [done|]. split; [done|].
      split; [by apply Hmem|]. split; [by apply Hmem|].
      intros r Hr.
      assert (Hin : preparation_level r ∈ x :: rest)
        by (apply Hmem; by exists r).
      split; [by apply Hmin_le|by apply Hmax_le].
Qed.

(** * Grouping, and the skill analysis *)

Section Distinct.

Lemma elem_of_distinct (l : list string) (x : string) :
  x ∈ distinct l <-> x ∈ l.
Proof.
  induction l as [|a l IH]; [done|]. simpl.
  rewrite !elem_of_cons, list_elem_of_filter, IH.
  destruct (decide (x = a)); tauto.
Qed.

Lemma NoDup_distinct (l : list string) : NoDup (distinct l).
Proof.
  induction l as [|a l IH]; simpl; [constructor|].
  apply NoDup_cons. split; [|by apply NoDup_filter].
  rewrite list_elem_of_filter. by intros [? _].
Qed.

Lemma sum_split_key (g : string -> nat) (x : string) (keys : list string) :
  NoDup keys ->
  sum_list_with g keys =
  ((if decide (x ∈ keys) then g x else 0)
   + sum_list_with g (filter (fun k => k <> x) keys))%nat.
Proof.
  induction keys as [|k keys IH]; intros Hnd; [done|].
  apply NoDup_cons in Hnd as [Hk Hnd]. specialize (IH Hnd).
  rewrite filter_cons. cbn [sum_list_with]. rewrite IH.
  destruct (decide (k = x)) as [->|Hne].
  - rewrite (decide_True (P := x ∈ x :: keys)) by left.
    rewrite (decide_False (P := x ∈ keys)) by done.
    rewrite (decide_False (P := x <> x)) by auto. lia.
  - rewrite (decide_True (P := k <> x)) by done. cbn [sum_list_with].
    destruct (decide (x ∈ keys)) as [Hin|Hnin].
    + rewrite (decide_True (P := x ∈ k :: keys)) by by right. lia.
    + rewrite (decide_False (P := x ∈ k :: keys)); [lia|].
      intros [?|?]%elem_of_cons; congruence.
Qed.

Context {A : Type} (key : A -> string).

Local Abbreviation group_size rows :=
  (fun k => length (filter (fun a => key a = k) rows)).

(** The sizes of the groups of a [GROUP BY] add up to the number of
    rows. *)
Lemma group_sizes_sum (rows : list A) :
  sum_list_with (group_size rows) (distinct (key <$> rows)) = length rows.
Proof.
  induction rows as [|a rows IH]; [done|].
  rewrite fmap_cons. cbn [distinct sum_list_with length].
  rewrite filter_cons, decide_True by done. cbn [length].
  assert (Hrest :
    sum_list_with (group_size (a :: rows))
      (filter (fun k => k <> key a) (distinct (key <$> rows)))
    = sum_list_with (group_size rows)
        (filter (fun k => k <> key a) (distinct (key <$> rows)))).
  { clear IH. induction (distinct (key <$> rows)) as [|k ks IHks]; [done|].
    rewrite filter_cons. case_decide as Hk; [|apply IHks].
    cbn [sum_list_with]. rewrite IHks. f_equal.
    rewrite filter_cons, decide_False by done. done. }
  rewrite Hrest.
  pose proof (sum_split_key (group_size rows) (key a) _
                (NoDup_distinct (key <$> rows))) as Hs.
  rewrite IH in Hs. rewrite Hs.
  destruct (decide (key a ∈ distinct (key <$> rows))) as [Hin|Hnin]; [lia|].
  assert (Hz : filter (fun b => key b = key a) rows = []).
  { destruct (filter _ rows) as [|b l] eqn:Hf; [done|]. exfalso. apply Hnin.
    apply elem_of_distinct, list_elem_of_fmap. exists b.
    assert (Hb : b ∈ filter (fun b => key b = key a) rows)
      by (rewrite Hf; left).
    apply list_elem_of_filter in Hb as [-> ?]. done. }
  rewrite Hz. simpl. lia.
Qed.

Lemma group_size_pos (rows : list A) (k : string) :
  k ∈ key <$> rows -> (0 < length (filter (fun a => key a = k) rows))%nat.
Proof.
  intros (a & -> & Ha)%list_elem_of_fmap.
  assert (Hin : a ∈ filter (fun b => key b = key a) rows)
    by by apply list_elem_of_filter.
  destruct (filter _ rows); [by apply elem_of_nil in Hin|simpl; lia].
Qed.

End Distinct.

#[global] Instance avg_asc_trans : Transitive avg_asc.
Proof. intros a b c. unfold avg_asc. apply Qle_trans. Qed.

#[global] Instance avg_asc_total : Total avg_asc.
Proof.
  intros a b. unfold avg_asc.
  destruct (Qlt_le_dec (sk_avg_score b) (sk_avg_score a)); [right|left];
    auto using Qlt_le_weak.
Qed.

Lemma elem_of_joined_skills (sdb : SkillDb) (uid : Z) (s : Skill) :
  s ∈ joined_skills sdb uid <->
  s ∈ interview_skills sdb
  /\ exists i, i ∈ interviews (skill_store sdb)
               /\ interview_id i = skill_interview_id s /\ user_id i = uid.
Proof.
  unfold joined_skills. rewrite list_elem_of_bind. split.
  - intros (s' & Hin & Hs').
    apply list_elem_of_fmap in Hin as (i & -> & Hi).
    apply list_elem_of_filter in Hi as [[? ?] ?]. eauto 6.
  - intros (Hs & i & Hi & Hid & Hu). exists s. split; [|done].
    apply list_elem_of_fmap. exists i. split; [done|].
    by apply list_elem_of_filter.
Qed.

Lemma elem_of_skill_analysis (sdb : SkillDb) (uid : Z) (row : SkillRow) :
  row ∈ get_skill_analysis sdb uid <->
  (exists s, s ∈ joined_skills sdb uid /\ skill_name s = sk_name row)
  /\ row = skill_group (joined_skills sdb uid) (sk_name row).
Proof.
  unfold get_skill_analysis.
  rewrite merge_sort_Permutation, list_elem_of_fmap. split.
  - intros (name & -> & Hname). simpl. split; [|done].
    apply elem_of_distinct, list_elem_of_fmap in Hname as (s & -> & Hs).
    eauto.
  - intros [(s & Hs & Hname) Hrow]. exists (sk_name row). split; [done|].
    apply elem_of_distinct, list_elem_of_fmap. eauto.
Qed.


Lemma joined_skills_cons (st : Store) (s : Skill) (skills : list Skill)
    (uid : Z) :
  joined_skills (mkSkillDb st (s :: skills)) uid =
  (((fun _ => s) <$>
      filter (fun i => interview_id i = skill_interview_id s /\ user_id i = uid)
             (interviews st))
   ++ joined_skills (mkSkillDb st skills) uid)%list.
Proof. done. Qed.

(** X15. Deleting an interview leaves its skill rows in [interview_skills]
    but takes them out of every user's analysis: the rows joined after the
    delete are the rows joined before it that belong to another
    interview.  The id, if a stored interview carries it, is one that
    SQLite can hold. *)
Theorem delete_interview_hides_skills (sdb : SkillDb) (iid uid : Z) :
  (forall i, i ∈ interviews (skill_store sdb) -> interview_id i = iid ->
             fits_int64 iid = true) ->
  let after := mkSkillDb (delete_interview (skill_store sdb) iid).2
                         (interview_skills sdb) in
  joined_skills after uid =
    filter (fun s => skill_interview_id s <> iid) (joined_skills sdb uid)
  /\ (forall row, row ∈ get_skill_analysis after uid ->
        exists s, s ∈ interview_skills sdb /\ skill_name s = sk_name row
                  /\ skill_interview_id s <> iid).
Proof.
  intros Hwf after.
  assert (Hrows : interviews (delete_interview (skill_store sdb) iid).2
                  = filter (fun r => interview_id r <> iid)
                           (interviews (skill_store sdb))).
  { unfold delete_interview.
    destruct (fits_int64 iid) eqn:Hfits; [done|]. simpl.
    assert (Habs : forall r, r ∈ interviews (skill_store sdb) ->
                             interview_id r <> iid).
    { intros r Hr Hid. specialize (Hwf r Hr Hid). congruence. }
    by rewrite (proj2 (filter_id_absent _ _ Habs)). }
  assert (Hj : joined_skills after uid =
               filter (fun s => skill_interview_id s <> iid)
                      (joined_skills sdb uid)).
  { unfold after, joined_skills. cbn [skill_store interview_skills].
    rewrite Hrows. clear Hrows Hwf after.
    destruct sdb as [st skills]. cbn [skill_store interview_skills].
    induction skills as [|s skills IH]; [done|].
    cbn [mbind list_bind]. rewrite filter_app, <- IH. f_equal.
    clear IH. induction (interviews st) as [|i rows IHr]; [done|].
    rewrite (filter_cons (fun r => interview_id r <> iid)).
    destruct (decide (interview_id i <> iid)) as [Hne|Heq].
    - rewrite !filter_cons.
      destruct (decide (interview_id i = skill_interview_id s
                        /\ user_id i = uid)) as [[Hid Hu]|Hno].
      + rewrite !fmap_cons, filter_cons, decide_True by congruence.
        by rewrite IHr.
      + apply IHr.
    - rewrite IHr, filter_cons.
      destruct (decide (interview_id i = skill_interview_id s
                        /\ user_id i = uid)) as [[Hid Hu]|Hno]; [|done].
      rewrite fmap_cons, filter_cons, decide_False; [done|].
      intros Hs. apply Heq. congruence. }
  split; [exact Hj|].
  intros row Hrow.
  apply elem_of_skill_analysis in Hrow as [(s & Hs & Hname) _].
  rewrite Hj in Hs. apply list_elem_of_filter in Hs as [Hne Hs].
  apply elem_of_joined_skills in Hs as [Hs _]. eauto.
Qed.

(** A skill recorded for an interview id that belongs to no interview of a
    user, whether the id is unknown or the interview is another user's,
    does not change that user's analysis. *)
Theorem add_interview_skill_elsewhere (sdb : SkillDb) (iid uid : Z)
    (name : string) (score : Z) :
  (forall i, i ∈ interviews (skill_store sdb) -> interview_id i = iid ->
             user_id i <> uid) ->
  get_skill_analysis (add_interview_skill sdb iid name score) uid
  = get_skill_analysis sdb uid.
Proof.
  intros Hnone. unfold get_skill_analysis.
  assert (Hj : joined_skills (add_interview_skill sdb iid name score) uid
               = joined_skills sdb uid); [|by rewrite Hj].
  unfold joined_skills, add_interview_skill. simpl.
  rewrite bind_app. simpl.
  assert (Hf : filter (fun i => interview_id i = iid /\ user_id i = uid)
                      (interviews (skill_store sdb)) = []).
  { induction (interviews (skill_store sdb)) as [|i rows IH]; [done|].
    rewrite filter_cons, decide_False.
    - apply IH. intros x Hx. apply Hnone. by right.
    - intros [Hid Hu]. by apply (Hnone i); [left|..]. }
  rewrite Hf. simpl. by rewrite !app_nil_r.
Qed.

(** * Further properties of the interview form, the list and the reminders *)

Section Form.

Variables (uid : Z) (company role' date status' : string) (prep : Z)
          (notes' topics : string) (now rowid stamp : Z).

Local Abbreviation submit db interview_id :=
  (InterviewManager.submit_form db uid interview_id company role' date status'
     prep notes' topics now rowid stamp).

Lemma submit_form_filled (db : Store) (interview_id : option Z) :
  company <> EmptyString -> role' <> EmptyString ->
  submit db interview_id =
  match InterviewManager.existing_interview db interview_id with
  | Some _ =>
      (if (update_interview db (default 0 interview_id) company role' date
             status' prep notes' topics now).1
       then InterviewManager.Updated else InterviewManager.UpdateFailed,
       (update_interview db (default 0 interview_id) company role' date
          status' prep notes' topics now).2)
  | None =>
      (if bool_decide (rowid = 0) then InterviewManager.AddFailed
       else InterviewManager.Added,
       (add_interview db rowid stamp uid company role' date status' prep
          notes' topics).2)
  end.
Proof.
  intros Hc Hr. unfold InterviewManager.submit_form, is_empty.
  rewrite !bool_decide_eq_false_2 by done. simpl.
  destruct (InterviewManager.existing_interview db interview_id).
  - by destruct (update_interview _ _ _ _ _ _ _ _ _ _) as [[] ?].
  - by case_bool_decide.
Qed.

Lemma submit_form_blank (db : Store) (interview_id : option Z) :
  company = EmptyString \/ role' = EmptyString ->
  submit db interview_id = (InterviewManager.RequiredMissing, db).
Proof.
  intros Hblank. unfold InterviewManager.submit_form, is_empty.
  destruct Hblank as [-> | ->]; [done|]. by rewrite orb_true_r.
Qed.

(** The form reports missing fields exactly when the company name or the
    role is empty, and then the store is left as it was. *)
Lemma submit_form_required (db : Store) (interview_id : option Z) :
  ((submit db interview_id).1 = InterviewManager.RequiredMissing <->
   company = EmptyString \/ role' = EmptyString)
  /\ ((submit db interview_id).1 = InterviewManager.RequiredMissing ->
      (submit db interview_id).2 = db).
Proof.
  destruct (decide (company = EmptyString \/ role' = EmptyString))
    as [Hblank|Hfilled].
  - rewrite (submit_form_blank db interview_id Hblank). simpl.
    split; [done|]. done.
  - assert (Hc : company <> EmptyString) by tauto.
    assert (Hr : role' <> EmptyString) by tauto.
    rewrite (submit_form_filled db interview_id Hc Hr).
    destruct (InterviewManager.existing_interview db interview_id); simpl.
    + case_match; split; try done; split; try done; tauto.
    + case_bool_decide; simpl; split; try done; split; try done; tauto.
Qed.

(** X21. Submitting the edit form for an id that no row carries any more
    does not report a failure: it inserts a new interview, owned by the
    submitting user, under the key that the database hands out. *)
Theorem submit_form_vanished_id (db : Store) (iid : Z) :
  company <> EmptyString -> role' <> EmptyString -> rowid <> 0 ->
  (forall r, r ∈ interviews db -> interview_id r <> iid) ->
  submit db (Some iid) =
  (InterviewManager.Added,
   with_interviews db
     (interviews db ++
      [mkInterview rowid uid company role' date status' prep notes' topics
                   stamp])).
Proof.
  intros Hc Hr Hrow Habs. rewrite submit_form_filled by done.
  assert (He : InterviewManager.existing_interview db (Some iid) = None).
  { unfold InterviewManager.existing_interview, get_interview_by_id.
    case_bool_decide; [done|].
    by rewrite (proj1 (filter_id_absent _ _ Habs)). }
  rewrite He. by rewrite bool_decide_eq_false_2.
Qed.

End Form.

#[global] Instance date_asc_trans : Transitive InterviewManager.date_asc.
Proof. intros a b c. unfold InterviewManager.date_asc.
       apply string_leb_trans. Qed.

#[global] Instance date_asc_total : Total InterviewManager.date_asc.
Proof. intros a b. unfold InterviewManager.date_asc.
       apply String.leb_total. Qed.

#[global] Instance company_asc_trans : Transitive InterviewManager.company_asc.
Proof. intros a b c. unfold InterviewManager.company_asc.
       apply string_leb_trans. Qed.

#[global] Instance company_asc_total : Total InterviewManager.company_asc.
Proof. intros a b. unfold InterviewManager.company_asc.
       apply String.leb_total. Qed.

#[global] Instance prep_desc_trans : Transitive InterviewManager.prep_desc.
Proof. intros a b c. unfold InterviewManager.prep_desc. lia. Qed.

#[global] Instance prep_desc_total : Total InterviewManager.prep_desc.
Proof. intros a b. unfold InterviewManager.prep_desc. lia. Qed.

Lemma listed_perm (rows : list Interview) (status_filter : list string)
    (sort_by : string) :
  InterviewManager.listed rows status_filter sort_by ≡ₚ
  filter (fun r => status r ∈ status_filter) rows.
Proof.
  unfold InterviewManager.listed.
  repeat case_bool_decide; by rewrite ?merge_sort_Permutation.
Qed.

(** X22. The cards of the list are the interviews whose status is in the
    filter, each once, in the order of the chosen option: newest or oldest
    date first, company name ascending, or preparation level descending;
    any other option leaves the order of the query. *)
Theorem listed_filtered_sorted (rows : list Interview)
    (status_filter : list string) (sort_by : string) :
  let cards := InterviewManager.listed rows status_filter sort_by in
  cards ≡ₚ filter (fun r => status r ∈ status_filter) rows
  /\ (sort_by = "Interview Date (Newest)" -> StronglySorted date_desc cards)
  /\ (sort_by = "Interview Date (Oldest)" ->
      StronglySorted InterviewManager.date_asc cards)
  /\ (sort_by = "Company Name" ->
      StronglySorted InterviewManager.company_asc cards)
  /\ (sort_by = "Preparation Level" ->
      StronglySorted InterviewManager.prep_desc cards)
  /\ (sort_by ∉ ["Interview Date (Newest)"; "Interview Date (Oldest)";
                 "Company Name"; "Preparation Level"] ->
      cards = filter (fun r => status r ∈ status_filter) rows).
Proof.
  intros cards. unfold cards, InterviewManager.listed.
  split; [apply listed_perm|].
  split; [intros ->; simpl; apply (StronglySorted_merge_sort date_desc)|].
  split; [intros ->; simpl;
          apply (StronglySorted_merge_sort InterviewManager.date_asc)|].
  split; [intros ->; simpl;
          apply (StronglySorted_merge_sort InterviewManager.company_asc)|].
  split; [intros ->; simpl;
          apply (StronglySorted_merge_sort InterviewManager.prep_desc)|].
  intros Hother. repeat (apply not_elem_of_cons in Hother as [? Hother]).
  by rewrite !bool_decide_eq_false_2.
Qed.

(** X23. With the default status filter the header counts every interview
    of the user, but a card is shown only for those whose status is one of
    the four: an interview with any other status is counted and not
    shown. *)
Theorem list_hides_other_statuses (db : Store) (uid : Z) (sort_by : string)
    (n : nat) (cards : list Interview) :
  InterviewManager.show_interviews_list db uid InterviewManager.all_statuses
    sort_by = Some (n, cards) ->
  n = length (get_user_interviews db uid)
  /\ (forall r, r ∈ cards <->
        r ∈ get_user_interviews db uid
        /\ status r ∈ ["Applied"; "Interviewed"; "Selected"; "Rejected"])
  /\ ((exists r, r ∈ get_user_interviews db uid
                 /\ status r ∉ ["Applied"; "Interviewed"; "Selected";
                                "Rejected"]) ->
      (length cards < n)%nat).
Proof.
  unfold InterviewManager.show_interviews_list.
  set (rows := get_user_interviews db uid).
  destruct rows as [|r0 rows'] eqn:Hrows; [done|]. rewrite <- Hrows.
  intros [= <- <-]. split; [done|].
  pose proof (listed_perm rows InterviewManager.all_statuses sort_by)
    as Hperm.
  split.
  - intros r. rewrite Hperm, list_elem_of_filter. tauto.
  - intros (r & Hr & Hst). rewrite Hperm.
    clear Hperm Hrows. induction rows as [|x rows IH];
      [by apply elem_of_nil in Hr|].
    rewrite filter_cons.
    pose proof (length_filter
                  (fun r => status r ∈ InterviewManager.all_statuses) rows).
    apply elem_of_cons in Hr as [->|Hr].
    + rewrite decide_False by done. simpl. lia.
    + specialize (IH Hr). case_decide; simpl; lia.
Qed.

Section Reminders.

Variable to_datetime : string -> Z.

Local Abbreviation when := (ReminderManager.when to_datetime).
Local Abbreviation sooner := (ReminderManager.sooner to_datetime).

#[local] Instance sooner_trans : Transitive sooner.
Proof. intros a b c. unfold ReminderManager.sooner. lia. Qed.

#[local] Instance sooner_total : Total sooner.
Proof. intros a b. unfold ReminderManager.sooner. lia. Qed.

Lemma normalize_midnight (now : Z) :
  ReminderManager.normalize now <= now
  /\ now < ReminderManager.normalize now + ReminderManager.day
  /\ ReminderManager.normalize now mod ReminderManager.day = 0.
Proof.
  unfold ReminderManager.normalize, ReminderManager.day.
  Z.div_mod_to_equations. lia.
Qed.

Lemma elem_of_upcoming (now : Z) (rows : list Interview) (r : Interview) :
  r ∈ ReminderManager.upcoming to_datetime now rows <->
  r ∈ rows /\ ReminderManager.normalize now <= when r.
Proof.
  unfold ReminderManager.upcoming.
  rewrite merge_sort_Permutation, list_elem_of_filter. tauto.
Qed.

(** The upcoming interviews are the interviews dated at or after the
    midnight that started the current day, each once, soonest first. *)
Theorem upcoming_from_midnight (now : Z) (rows : list Interview) :
  ReminderManager.upcoming to_datetime now rows ≡ₚ
    filter (fun r => ReminderManager.normalize now <= when r) rows
  /\ (forall r, r ∈ ReminderManager.upcoming to_datetime now rows <->
        r ∈ rows /\ now - now mod ReminderManager.day <= when r)
  /\ StronglySorted sooner (ReminderManager.upcoming to_datetime now rows).
Proof.
  assert (Hperm : ReminderManager.upcoming to_datetime now rows ≡ₚ
            filter (fun r => ReminderManager.normalize now <= when r) rows)
    by apply merge_sort_Permutation.
  split; [exact Hperm|]. split.
  - intros r. rewrite elem_of_upcoming. unfold ReminderManager.normalize.
    tauto.
  - apply (StronglySorted_merge_sort sooner).
Qed.

Lemma days_until_bounds (now : Z) (r : Interview) :
  now + ReminderManager.days_until to_datetime now r * ReminderManager.day
    <= when r
  < now + (ReminderManager.days_until to_datetime now r + 1)
          * ReminderManager.day.
Proof.
  unfold ReminderManager.days_until, ReminderManager.day. fold (when r).
  Z.div_mod_to_equations. lia.
Qed.

Lemma card_status_passed (now : Z) (r : Interview) :
  when r < now ->
  ReminderManager.card_status to_datetime now r = ReminderManager.Passed.
Proof.
  intros Hlt. pose proof (days_until_bounds now r) as Hb.
  unfold ReminderManager.card_status, ReminderManager.day in *.
  rewrite (proj2 (Z.ltb_lt _ 0)); [done|]. lia.
Qed.

Lemma card_status_today (now : Z) (r : Interview) :
  now <= when r < now + ReminderManager.day ->
  ReminderManager.card_status to_datetime now r = ReminderManager.Today.
Proof.
  intros Hlt. pose proof (days_until_bounds now r) as Hb.
  unfold ReminderManager.card_status, ReminderManager.day in *.
  assert (ReminderManager.days_until to_datetime now r = 0) as -> by lia.
  done.
Qed.

(** X24. The label of a reminder card goes by whole periods of 24 hours
    counted from the current instant, not by calendar days: "Passed" when
    the date lies before now, "Today!" when it lies within the next 24
    hours, yellow up to just under four days ahead, green from there. *)
Theorem card_status_windows (now : Z) (r : Interview) :
  let d := ReminderManager.day in
  (ReminderManager.card_status to_datetime now r = ReminderManager.Passed
     <-> when r < now)
  /\ (ReminderManager.card_status to_datetime now r = ReminderManager.Today
     <-> now <= when r < now + d)
  /\ ((exists n, ReminderManager.card_status to_datetime now r
                 = ReminderManager.InDaysSoon n)
     <-> now + d <= when r < now + 4 * d)
  /\ ((exists n, ReminderManager.card_status to_datetime now r
                 = ReminderManager.InDaysLater n)
     <-> now + 4 * d <= when r)
  /\ (forall n, ReminderManager.card_status to_datetime now r
                = ReminderManager.InDaysSoon n
                \/ ReminderManager.card_status to_datetime now r
                   = ReminderManager.InDaysLater n ->
        now + n * d <= when r < now + (n + 1) * d).
Proof.
  intros d. unfold ReminderManager.card_status, ReminderManager.days_until.
  fold (when r). unfold d, ReminderManager.day.
  set (q := (when r - now) / 86400000000000).
  assert (Hq : 86400000000000 * q <= when r - now
               < 86400000000000 * q + 86400000000000).
  { unfold q. Z.div_mod_to_equations. lia. }
  clearbody q.
  destruct (q <? 0)%Z eqn:H0; [apply Z.ltb_lt in H0|apply Z.ltb_ge in H0].
  { split; [split; [lia|done]|]. split; [split; [done|lia]|].
    split; [split; [by intros [? ?]|lia]|].
    split; [split; [by intros [? ?]|lia]|]. by intros n [?|?]. }
  destruct (q =? 0)%Z eqn:H1; [apply Z.eqb_eq in H1|apply Z.eqb_neq in H1].
  { split; [split; [done|lia]|]. split; [split; [lia|done]|].
    split; [split; [by intros [? ?]|lia]|].
    split; [split; [by intros [? ?]|lia]|]. by intros n [?|?]. }
  destruct (q <=? 3)%Z eqn:H3; [apply Z.leb_le in H3|apply Z.leb_gt in H3].
  - split; [split; [done|lia]|]. split; [split; [done|lia]|].
    split; [split; [lia|eauto]|].
    split; [split; [by intros [? ?]|lia]|].
    intros n [[= <-]|?]; [lia|done].
  - split; [split; [done|lia]|]. split; [split; [done|lia]|].
    split; [split; [by intros [? ?]|lia]|].
    split; [split; [lia|eauto]|].
    intros n [?|[= <-]]; [done|lia].
Qed.

(** X25. Once the day has started, an interview dated today is still listed
    among the upcoming ones but its card says "Passed", and the card of an
    interview dated tomorrow says "Today!". *)
Theorem today_is_labelled_passed (now : Z) (rows : list Interview)
    (r : Interview) :
  r ∈ rows -> ReminderManager.normalize now < now ->
  (when r = ReminderManager.normalize now ->
   r ∈ ReminderManager.upcoming to_datetime now rows
   /\ ReminderManager.card_status to_datetime now r = ReminderManager.Passed)
  /\ (when r = ReminderManager.normalize now + ReminderManager.day ->
      r ∈ ReminderManager.upcoming to_datetime now rows
      /\ ReminderManager.card_status to_datetime now r
         = ReminderManager.Today).
Proof.
  intros Hr Hstarted. pose proof (normalize_midnight now) as (Hle & Hlt & _).
  split.
  - intros Hw. split.
    + apply elem_of_upcoming. split; [done|lia].
    + apply card_status_passed. lia.
  - intros Hw. split.
    + apply elem_of_upcoming. split; [done|].
      unfold ReminderManager.day in *. lia.
    + apply card_status_today. lia.
Qed.

End Reminders.

(** * Further properties of the analytics *)

Lemma percentage_bounds (s n : nat) :
  (s <= n)%nat -> (0 < n)%nat ->
  (0 <= percentage s n /\ percentage s n <= 100)%Q.
Proof.
  intros Hs Hn. destruct n as [|n]; [lia|].
  unfold percentage, Qnat, Qle, Qdiv, Qmult, Qinv. simpl. split; nia.
Qed.

(** [k < s / n * 100] read on the counts. *)
Lemma percentage_above (k : Z) (s n : nat) :
  (0 < n)%nat ->
  (inject_Z k < percentage s n)%Q <-> k * Z.of_nat n < 100 * Z.of_nat s.
Proof.
  intros Hn. destruct n as [|n]; [lia|].
  unfold percentage, Qnat, Qlt, Qdiv, Qmult, Qinv, inject_Z. simpl. nia.
Qed.

Lemma two_statuses_le (s1 s2 : string) (df : list Interview) :
  s1 <> s2 ->
  (length (with_status s1 df) + length (with_status s2 df) <= length df)%nat.
Proof.
  intros Hne. unfold with_status.
  induction df as [|r df IH]; [done|].
  rewrite !filter_cons.
  destruct (decide (status r = s1)) as [H1|H1];
    destruct (decide (status r = s2)) as [H2|H2]; simpl; try lia.
  congruence.
Qed.

Lemma success_data_totals (df : list Interview) (levels : list Z) :
  sum_list_with Dashboard.sr_total (omap (Dashboard.success_row df) levels)
  = sum_list_with (fun l => length (with_prep l df)) levels.
Proof.
  induction levels as [|l levels IH]; [done|].
  cbn [omap list_omap sum_list_with].
  destruct (Dashboard.success_row df l) as [row|] eqn:Hrow.
  - apply success_row_Some in Hrow as [_ ->].
    cbn [sum_list_with Dashboard.sr_total]. by rewrite IH.
  - rewrite IH. unfold Dashboard.success_row in Hrow.
    destruct (0 <? length (with_prep l df))%nat eqn:Hpos; [done|].
    apply Nat.ltb_ge in Hpos. lia.
Qed.

Lemma prep_analysis_totals (df : list Interview) (levels : list Z) :
  sum_list_with AIInsights.pr_total (omap (AIInsights.prep_row df) levels)
  = sum_list_with (fun l => length (with_prep l df)) levels.
Proof.
  induction levels as [|l levels IH]; [done|].
  cbn [omap list_omap sum_list_with].
  destruct (AIInsights.prep_row df l) as [row|] eqn:Hrow.
  - apply prep_row_Some in Hrow as [_ ->].
    cbn [sum_list_with AIInsights.pr_total]. by rewrite IH.
  - rewrite IH. unfold AIInsights.prep_row in Hrow.
    destruct (0 <? length (with_prep l df))%nat eqn:Hpos; [done|].
    apply Nat.ltb_ge in Hpos. lia.
Qed.

Lemma levels_one_to_five (df : list Interview) :
  sum_list_with (fun l => length (with_prep l df)) [1; 2; 3; 4; 5]
  = length (filter (fun r => 1 <= preparation_level r <= 5) df).
Proof.
  cbn [sum_list_with]. unfold with_prep.
  induction df as [|r df IH]; [done|].
  rewrite !filter_cons.
  repeat (case_decide; cbn [length]); lia.
Qed.

(** X26. In both success-rate tables every rate lies between 0 and 100 and
    the totals add up to the number of interviews whose preparation level
    is one of 1..5: an interview with another level is in no row.  In the
    insights table the selected and the rejected of a row together never
    exceed its total. *)
Theorem success_tables_bounds (df : list Interview) :
  (forall row, row ∈ Dashboard.success_data df ->
     (0 <= Dashboard.sr_rate row /\ Dashboard.sr_rate row <= 100)%Q)
  /\ (forall row, row ∈ AIInsights.prep_analysis df ->
     (0 <= AIInsights.pr_rate row /\ AIInsights.pr_rate row <= 100)%Q
     /\ (AIInsights.pr_selected row + AIInsights.pr_rejected row
         <= AIInsights.pr_total row)%nat)
  /\ sum_list_with Dashboard.sr_total (Dashboard.success_data df)
     = length (filter (fun r => 1 <= preparation_level r <= 5) df)
  /\ sum_list_with AIInsights.pr_total (AIInsights.prep_analysis df)
     = length (filter (fun r => 1 <= preparation_level r <= 5) df).
Proof.
  split; [|split; [|split]].
  - intros row (level & _ & Hrow)%list_elem_of_omap.
    apply success_row_Some in Hrow as [Hpos ->]. simpl.
    apply percentage_bounds; [apply length_filter|done].
  - intros row (level & _ & Hrow)%list_elem_of_omap.
    apply prep_row_Some in Hrow as [Hpos ->]. simpl. split.
    + apply percentage_bounds; [apply length_filter|done].
    + by apply two_statuses_le.
  - unfold Dashboard.success_data.
    by rewrite success_data_totals, levels_one_to_five.
  - unfold AIInsights.prep_analysis.
    by rewrite prep_analysis_totals, levels_one_to_five.
Qed.

(** X27. For a list that is not empty, the performance rating read on the
    counts: "Excellent" when more than one interview in five was Selected,
    "Good" when more than one in ten but at most one in five,
    "Needs Improvement" otherwise.  The success rate and the interview
    conversion rate each lie between 0 and 100.  For the empty list the
    method has no rating: selecting the status column raises. *)
Theorem performance_rating (df : list Interview) :
  let n := length df in
  let selected := length (with_status "Selected" df) in
  (df = [] ->
   PerformanceAnalysis.performance df = None
   /\ PerformanceAnalysis.success_rate df = None)
  /\ (df <> [] ->
      exists rate conversion label,
        PerformanceAnalysis.success_rate df = Some rate
        /\ PerformanceAnalysis.interview_conversion df = Some conversion
        /\ PerformanceAnalysis.performance df = Some label
        /\ rate = (Qnat selected / Qnat n * 100)%Q
        /\ (label = "Excellent" <-> (n < 5 * selected)%nat)
        /\ (label = "Good" <-> (5 * selected <= n < 10 * selected)%nat)
        /\ (label = "Needs Improvement" <-> (10 * selected <= n)%nat)
        /\ (0 <= rate /\ rate <= 100)%Q
        /\ (0 <= conversion /\ conversion <= 100)%Q).
Proof.
  intros n selected. split; [by intros ->|]. intros Hne.
  assert (Hn : (0 < n)%nat) by (unfold n; destruct df; [done|simpl; lia]).
  assert (Hsel : (selected <= n)%nat) by apply length_filter.
  assert (Hrate : forall s, PerformanceAnalysis.rate_of s df
                  = Some (percentage (length (with_status s df)) n)).
  { intros s. unfold PerformanceAnalysis.rate_of. fold n.
    destruct df; [done|]. by rewrite (proj2 (Nat.ltb_lt _ _) Hn). }
  set (rate := percentage selected n).
  assert (H20 : Qltb 20 rate = true <-> (n < 5 * selected)%nat).
  { rewrite Qltb_lt. unfold rate.
    rewrite (percentage_above 20 selected n Hn). lia. }
  assert (H10 : Qltb 10 rate = true <-> (n < 10 * selected)%nat).
  { rewrite Qltb_lt. unfold rate.
    rewrite (percentage_above 10 selected n Hn). lia. }
  exists rate, (percentage (length (with_status "Interviewed" df)) n).
  exists (if Qltb 20 rate then "Excellent"
          else if Qltb 10 rate then "Good" else "Needs Improvement").
  split; [apply Hrate|]. split; [apply Hrate|].
  split.
  { unfold PerformanceAnalysis.performance,
      PerformanceAnalysis.success_rate. by rewrite Hrate. }
  split; [done|].
  assert (Hb : (0 <= rate /\ rate <= 100)%Q)
    by (by apply percentage_bounds).
  assert (Hc : (0 <= percentage (length (with_status "Interviewed" df)) n
               /\ percentage (length (with_status "Interviewed" df)) n
                  <= 100)%Q)
    by (apply percentage_bounds; [apply length_filter|done]).
  destruct (Qltb 20 rate) eqn:E20;
    [assert (n < 5 * selected)%nat by by apply H20
    |assert (~ (n < 5 * selected)%nat) by (rewrite <- H20; congruence)];
  (destruct (Qltb 10 rate) eqn:E10;
    [assert (n < 10 * selected)%nat by by apply H10
    |assert (~ (n < 10 * selected)%nat) by (rewrite <- H10; congruence)]).
  all: split; [split; [try done; lia|try done; lia]|].
  all: split; [split; [try done; lia|try done; lia]|].
  all: split; [split; [try done; lia|try done; lia]|].
  all: done.
Qed.

(** * The topic analysis *)

Import WeakAreaDetection.

Lemma split_comma_length (s : string) :
  length (split_comma s) = S (count_commas s).
Proof.
  induction s as [|c s IH]; [done|]. simpl.
  case_bool_decide; simpl; [by rewrite IH|].
  destruct (split_comma s) as [|piece pieces]; simpl in *; lia.
Qed.

(** Splitting at the commas loses nothing: joining the pieces with commas
    gives the string back. *)
Lemma join_split_comma (s : string) : join_comma (split_comma s) = s.
Proof.
  induction s as [|c s IH]; [done|]. cbn [split_comma].
  pose proof (split_comma_length s) as Hl.
  destruct (split_comma s) as [|piece pieces] eqn:Hs; [done|].
  case_bool_decide as Hc.
  - subst c. simpl in *. by rewrite IH.
  - destruct pieces; simpl in *; by rewrite <- IH.
Qed.

Lemma count_commas_trailing (s : string) :
  (1 <= count_commas (s ++ ","))%nat.
Proof.
  induction s as [|c s IH]; [simpl; lia|].
  change (String c s ++ ",") with (String c (s ++ ",")). simpl. lia.
Qed.

Lemma split_comma_trailing (s : string) :
  last (split_comma (s ++ ",")) = Some EmptyString.
Proof.
  induction s as [|c s IH]; [done|].
  change (String c s ++ ",") with (String c (s ++ ",")).
  cbn [split_comma].
  pose proof (split_comma_length (s ++ ",")) as Hl.
  pose proof (count_commas_trailing s) as Hc.
  destruct (split_comma (s ++ ",")) as [|piece pieces]; [done|].
  destruct pieces as [|piece' pieces]; [simpl in Hl; lia|].
  case_bool_decide; rewrite !last_cons in *;
    destruct (last pieces); simpl in *; congruence.
Qed.

Lemma StronglySorted_filter {A} (R : relation A) (P : A -> Prop)
    `{!forall x, Decision (P x)} (l : list A) :
  StronglySorted R l -> StronglySorted R (filter P l).
Proof.
  induction 1 as [|x l Hs IH Hall]; [constructor|].
  rewrite filter_cons. case_decide; [|done].
  constructor; [done|]. rewrite Forall_forall in *.
  intros y [_ Hy]%list_elem_of_filter. auto.
Qed.

#[global] Instance rate_asc_trans : Transitive rate_asc.
Proof. intros a b c. unfold rate_asc. apply Qle_trans. Qed.

#[global] Instance rate_asc_total : Total rate_asc.
Proof.
  intros a b. unfold rate_asc.
  destruct (Qlt_le_dec (tr_success_rate b) (tr_success_rate a)); [right|left];
    auto using Qlt_le_weak.
Qed.

Section Topics.

Variable strip : string -> string.

Lemma elem_of_topic_df (df : list Interview) (row : TopicRow) :
  row ∈ topic_df strip df <->
  (exists a, a ∈ topics_data strip df /\ ta_topic a = tr_topic row)
  /\ row = topic_row (topics_data strip df) (tr_topic row).
Proof.
  unfold topic_df. rewrite merge_sort_Permutation, list_elem_of_fmap. split.
  - intros (name & -> & Hname). simpl. split; [|done].
    apply elem_of_distinct, list_elem_of_fmap in Hname as (a & -> & Ha).
    eauto.
  - intros [(a & Ha & Hname) Hrow]. exists (tr_topic row). split; [done|].
    apply elem_of_distinct, list_elem_of_fmap. eauto.
Qed.

(** X28. A row with a non-empty topics field contributes one attempt per
    comma-separated piece, one more than the field has commas, each with
    the row's status and preparation level, and a row with an empty field
    contributes none.  A field that ends with a comma therefore
    contributes an attempt for the blank topic. *)
Theorem row_topics_pieces (r : Interview) :
  length (row_topics strip r) =
    (if decide (technical_topics r = EmptyString) then 0%nat
     else S (count_commas (technical_topics r)))
  /\ (forall a, a ∈ row_topics strip r ->
        ta_status a = status r /\ ta_prep_level a = preparation_level r)
  /\ (forall s, technical_topics r = s ++ "," ->
        exists a, a ∈ row_topics strip r /\ ta_topic a = strip EmptyString).
Proof.
  unfold row_topics, is_empty. split; [|split].
  - case_decide as He.
    + by rewrite bool_decide_eq_true_2.
    + rewrite bool_decide_eq_false_2 by done.
      by rewrite length_fmap, split_comma_length.
  - intros a. case_bool_decide; [by intros ?%elem_of_nil|].
    by intros (t & -> & _)%list_elem_of_fmap.
  - intros s Hs. rewrite Hs.
    rewrite bool_decide_eq_false_2 by (by destruct s).
    pose proof (split_comma_trailing s) as Hlast.
    eexists. split.
    + apply list_elem_of_fmap. exists EmptyString. split; [done|].
      apply last_Some in Hlast as [l' ->]. apply elem_of_app. right. left.
    + done.
Qed.

(** X29. The topic table lists each topic once, in ascending order of success
    rate; a topic's attempts are the attempts recorded for it, at least
    one, its rate lies between 0 and 100, and the attempts of all topics
    add up to the number of recorded attempts. *)
Theorem topic_df_groups (df : list Interview) :
  let data := topics_data strip df in
  StronglySorted rate_asc (topic_df strip df)
  /\ NoDup (tr_topic <$> topic_df strip df)
  /\ (forall row, row ∈ topic_df strip df ->
        (exists a, a ∈ data /\ ta_topic a = tr_topic row)
        /\ tr_attempts row
           = length (filter (fun a => ta_topic a = tr_topic row) data)
        /\ (1 <= tr_attempts row)%nat
        /\ (0 <= tr_success_rate row /\ tr_success_rate row <= 100)%Q)
  /\ sum_list_with tr_attempts (topic_df strip df) = length data.
Proof.
  intros data.
  assert (Hperm : topic_df strip df ≡ₚ
            topic_row data <$> distinct (ta_topic <$> data))
    by apply merge_sort_Permutation.
  split; [apply (StronglySorted_merge_sort rate_asc)|]. split.
  { rewrite Hperm, <- list_fmap_compose.
    assert (Hid : (tr_topic ∘ topic_row data) <$> distinct (ta_topic <$> data)
                  = distinct (ta_topic <$> data)).
    { rewrite <- (list_fmap_id (distinct (ta_topic <$> data))) at 2.
      by apply list_fmap_ext. }
    rewrite Hid. apply NoDup_distinct. }
  split.
  - intros row [(a & Ha & Hname) Hrow]%elem_of_topic_df.
    fold data in Hrow, Ha. split; [eauto|].
    set (name := tr_topic row) in *. rewrite Hrow. simpl.
    assert (Hpos : (0 < length (filter (fun a => ta_topic a = name) data))%nat).
    { apply (group_size_pos ta_topic). rewrite <- Hname.
      apply list_elem_of_fmap. eauto. }
    split; [done|]. split; [lia|].
    rewrite (proj2 (Nat.ltb_lt _ _) Hpos).
    apply percentage_bounds; [apply length_filter|done].
  - rewrite Hperm. rewrite <- (group_sizes_sum ta_topic data).
    generalize (distinct (ta_topic <$> data)) as names.
    induction names as [|k names IH]; [done|].
    rewrite fmap_cons. cbn [sum_list_with]. by rewrite IH.
Qed.

(** X30. The weak topics are at most three rows of the topic table, each with a
    success rate under 20, and no row left out has a lower rate than a row
    that is listed. *)
Theorem weak_topics_lowest (df : list Interview) :
  (length (weak_topics strip df) <= 3)%nat
  /\ (forall w, w ∈ weak_topics strip df ->
        w ∈ topic_df strip df /\ (tr_success_rate w < 20)%Q)
  /\ (forall w row, w ∈ weak_topics strip df -> row ∈ topic_df strip df ->
        row ∉ weak_topics strip df ->
        (tr_success_rate w <= tr_success_rate row)%Q).
Proof.
  unfold weak_topics.
  set (below := filter (fun row => (tr_success_rate row < 20)%Q)
                       (topic_df strip df)).
  assert (Hsorted : StronglySorted rate_asc below).
  { apply StronglySorted_filter, (StronglySorted_merge_sort rate_asc). }
  assert (Hin : forall w, w ∈ take 3 below ->
                  w ∈ topic_df strip df /\ (tr_success_rate w < 20)%Q).
  { intros w Hw.
    assert (Hb : w ∈ below) by by apply (subseteq_take 3 below).
    apply list_elem_of_filter in Hb. tauto. }
  split; [rewrite length_take; lia|]. split; [exact Hin|].
  intros w row Hw Hrow Hout.
  destruct (Qlt_le_dec (tr_success_rate row) 20) as [Hlow|Hhigh].
  - assert (Hb : row ∈ below) by by apply list_elem_of_filter.
    rewrite <- (take_drop 3 below) in Hb, Hsorted.
    apply elem_of_app in Hb as [?|Hb]; [done|].
    by apply (StronglySorted_app_1_elem_of rate_asc _ _ w row Hsorted).
  - apply Hin in Hw as [_ Hw]. apply Qlt_le_weak.
    eapply Qlt_le_trans; eauto.
Qed.

End Topics.

(** * The further properties on the sample data *)

Lemma db2_has_no_id_4 :
  forall r, r ∈ interviews Samples.db2 -> interview_id r <> 4.
Proof.
  intros r Hr. unfold Samples.db2 in Hr. simpl in Hr.
  repeat (apply elem_of_cons in Hr as [->|Hr]; [done|]).
  by apply elem_of_nil in Hr.
Defined.

Lemma add_interview_then_get_witness :
  let added := add_interview Samples.db2 4 0 2 "Initech" "SRE" "2025-04-01"
                 "Applied" 2 "n" "t" in
  get_interview_by_id added.2 added.1
    = Some (mkInterview 4 2 "Initech" "SRE" "2025-04-01" "Applied" 2 "n" "t" 0)
  /\ (forall other, other <> 4 ->
        get_interview_by_id added.2 other
        = get_interview_by_id Samples.db2 other).
Proof.
  apply (add_interview_then_get 4 0 2 "Initech" "SRE" "2025-04-01" "Applied"
           2 "n" "t" Samples.db2).
  exact db2_has_no_id_4.
Defined.

Lemma add_interview_then_delete_witness :
  let added := add_interview Samples.db2 4 0 2 "Initech" "SRE" "2025-04-01"
                 "Applied" 2 "n" "t" in
  delete_interview added.2 added.1 = (true, Samples.db2).
Proof.
  apply (add_interview_then_delete 4 0 2 "Initech" "SRE" "2025-04-01"
           "Applied" 2 "n" "t" Samples.db2).
  - reflexivity.
  - exact db2_has_no_id_4.
Defined.

Lemma delete_interview_hides_skills_witness :
  let after := mkSkillDb (delete_interview Samples.db2 1).2
                         (interview_skills MoreSamples.sdb2) in
  joined_skills after 1 =
    filter (fun s => skill_interview_id s <> 1)
           (joined_skills MoreSamples.sdb2 1)
  /\ (forall row, row ∈ get_skill_analysis after 1 ->
        exists s, s ∈ interview_skills MoreSamples.sdb2
                  /\ skill_name s = sk_name row
                  /\ skill_interview_id s <> 1).
Proof.
  apply (delete_interview_hides_skills MoreSamples.sdb2 1 1).
  intros _ _ _. reflexivity.
Defined.

Example skills_after_delete :
  sk_name <$> get_skill_analysis MoreSamples.sdb2 1 = ["DSA"; "SQL"]
  /\ sk_name <$> get_skill_analysis
                   (mkSkillDb (delete_interview Samples.db2 1).2
                              (interview_skills MoreSamples.sdb2)) 1
     = ["SQL"].
Proof. split; reflexivity. Qed.

Lemma create_user_then_get_witness :
  exists id,
    get_user_by_username (create_user Samples.db2 "carol" "c@x.com" "h3").2
      "carol"
    = Some (mkUser id "carol" "c@x.com" "h3").
Proof.
  apply (create_user_then_get Samples.db2 "carol" "c@x.com" "h3").
  reflexivity.
Defined.

Lemma login_failure_witness :
  let attempt := Login.login MoreSamples.toy_check MoreSamples.adb2 7
                   "alice" "wrong" in
  attempt.2 = MoreSamples.adb2
  /\ attempt.1.2 = None
  /\ (is_empty "alice" = false -> is_empty "wrong" = false ->
      attempt.1.1.2 = "Invalid username or password").
Proof.
  apply (login_failure MoreSamples.toy_check MoreSamples.adb2 7 "alice"
           "wrong").
  reflexivity.
Defined.

Lemma login_success_witness :
  exists user,
    get_user_by_username Samples.db2 "alice" = Some user
    /\ MoreSamples.toy_check "1" (password_hash user) = true
    /\ (Login.login MoreSamples.toy_check MoreSamples.adb2 7 "alice" "1").1
       = (true, "Login successful!", Some user)
    /\ auth_store
         (Login.login MoreSamples.toy_check MoreSamples.adb2 7 "alice" "1").2
       = Samples.db2
    /\ last_login
         (Login.login MoreSamples.toy_check MoreSamples.adb2 7 "alice" "1").2
       = <[u_user_id user := 7]> ∅.
Proof.
  apply (login_success MoreSamples.toy_check MoreSamples.adb2 7 "alice" "1").
  reflexivity.
Defined.

Lemma signup_then_login_witness :
  let created := signup Samples.toy_hash Samples.db2 "s" "carol" "c@x.com"
                   "secret1" in
  let adb := mkAuthDb created.2 ∅ in
  (Login.login MoreSamples.toy_check adb 7 "carol" "secret1").1
    = (true, "Login successful!",
       Some (mkUser (next_user_id (users Samples.db2)) "carol" "c@x.com"
                    (Samples.toy_hash "secret1" "s")))
  /\ (MoreSamples.toy_check "secret2" (Samples.toy_hash "secret1" "s") = false
      -> (Login.login MoreSamples.toy_check adb 7 "carol" "secret2").1.1.1
         = false).
Proof.
  apply (signup_then_login Samples.toy_hash MoreSamples.toy_check Samples.db2
           "s" "carol" "c@x.com" "secret1" ∅ 7 "secret2"); reflexivity.
Defined.

Lemma submit_form_vanished_id_witness :
  InterviewManager.submit_form Samples.db2 1 (Some 4) "Initech" "SRE"
    "2025-04-01" "Applied" 2 "n" "t" 7 9 0
  = (InterviewManager.Added,
     with_interviews Samples.db2
       (interviews Samples.db2 ++
        [mkInterview 9 1 "Initech" "SRE" "2025-04-01" "Applied" 2 "n" "t" 0])).
Proof.
  apply (submit_form_vanished_id 1 "Initech" "SRE" "2025-04-01" "Applied" 2
           "n" "t" 7 9 0 Samples.db2 4); [done|done|done|].
  exact db2_has_no_id_4.
Defined.

Lemma list_hides_other_statuses_witness :
  let cards := [Samples.iv 1 1 "2025-01-10" "Applied" 3] in
  2%nat = length (get_user_interviews MoreSamples.db_pending 1)
  /\ (forall r, r ∈ cards <->
        r ∈ get_user_interviews MoreSamples.db_pending 1
        /\ status r ∈ ["Applied"; "Interviewed"; "Selected"; "Rejected"])
  /\ ((exists r, r ∈ get_user_interviews MoreSamples.db_pending 1
                 /\ status r ∉ ["Applied"; "Interviewed"; "Selected";
                                "Rejected"]) ->
      (length cards < 2)%nat).
Proof.
  apply (list_hides_other_statuses MoreSamples.db_pending 1
           "Interview Date (Newest)" 2
           [Samples.iv 1 1 "2025-01-10" "Applied" 3]).
  vm_compute. reflexivity.
Defined.

Lemma today_is_labelled_passed_witness :
  let now := 10 * ReminderManager.day + 5 in
  let r := Samples.iv 1 1 "2025-01-10" "Applied" 3 in
  (ReminderManager.when MoreSamples.toy_datetime r
     = ReminderManager.normalize now ->
   r ∈ ReminderManager.upcoming MoreSamples.toy_datetime now [r]
   /\ ReminderManager.card_status MoreSamples.toy_datetime now r
      = ReminderManager.Passed)
  /\ (ReminderManager.when MoreSamples.toy_datetime r
        = ReminderManager.normalize now + ReminderManager.day ->
      r ∈ ReminderManager.upcoming MoreSamples.toy_datetime now [r]
      /\ ReminderManager.card_status MoreSamples.toy_datetime now r
         = ReminderManager.Today).
Proof.
  apply (today_is_labelled_passed MoreSamples.toy_datetime
           (10 * ReminderManager.day + 5)
           [Samples.iv 1 1 "2025-01-10" "Applied" 3]
           (Samples.iv 1 1 "2025-01-10" "Applied" 3)).
  - left.
  - reflexivity.
Defined.

Example reminder_card_today :
  ReminderManager.card_status MoreSamples.toy_datetime
    (10 * ReminderManager.day + 5)
    (Samples.iv 1 1 "2025-01-10" "Applied" 3) = ReminderManager.Passed
  /\ ReminderManager.card_status MoreSamples.toy_datetime
       (10 * ReminderManager.day + 5)
       (Samples.iv 2 1 "2025-01-11" "Applied" 3) = ReminderManager.Today.
Proof. split; reflexivity. Qed.

Example split_examples :
  split_comma "DSA, SQL" = ["DSA"; " SQL"]
  /\ split_comma "DSA," = ["DSA"; EmptyString]
  /\ split_comma "DSA" = ["DSA"].
Proof. repeat split; reflexivity. Qed.
